(** * NIFTY option viewer: analytics engine, snapshot store, snapshot parser
      and backfill interval generator

    A shallow embedding of [src/services/analysis.ts],
    [src/services/dataService.ts] and [src/services/trendlyne.ts].

    Conventions of the embedding.
    - A JavaScript [number] that holds a strike price, an open interest, a
      volume, a change in open interest or an underlying price is an integer
      of [Z]: the arithmetic of the code on them ([+], [-], [*], comparisons)
      is exact on [Z].  The two put/call ratios, printed with two decimals,
      are rationals of [Q]: whole numbers of hundredths, read off the
      binary64 quotient as [toFixed] does.
    - An optional field ([CE?], [PE?], a missing JSON key) is an [option]; a
      JSON value that is [null] where an object is read is [None].
    - A [try] whose [catch] answers [null] is an [option]: whatever throws
      gives [None].
    - A [Date] is a number of minutes from the local midnight of the clock's
      day, valid within the range of [Date].
    - A loop over a mutable accumulator is a [fold_left] over the state the
      loop updates.
    - What the code takes from the JavaScript runtime (the clock, the parsing
      of a date, [parseInt], [parseFloat]) is a variable of a section. *)

From Stdlib Require Import ZArith QArith Qround Qabs List Bool Lia Lqa Permutation Sorted.
From Stdlib Require Import String Ascii.
From Stdlib Require Import Floats.SpecFloat.
Import ListNotations.

Local Open Scope Z_scope.

(** ** Array operations of the JavaScript runtime used by the code *)

Module JsArray.

Section Generic.
Context {A : Type}.

(** [Array.prototype.sort(cmp)]: a stable sort; [cmp a b <= 0] leaves [a]
    before [b].  Insertion from the right keeps equal elements in their
    original order. *)
Fixpoint insert (cmp : A -> A -> Z) (x : A) (l : list A) : list A :=
  match l with
  | [] => [x]
  | y :: l' => if cmp x y <=? 0 then x :: y :: l' else y :: insert cmp x l'
  end.

Definition sort (cmp : A -> A -> Z) (l : list A) : list A :=
  fold_right (insert cmp) [] l.

(** [Array.prototype.findIndex(p)]: the index of the first element
    satisfying [p], or -1. *)
Fixpoint findIndex_from (p : A -> bool) (l : list A) (i : Z) : Z :=
  match l with
  | [] => -1
  | x :: l' => if p x then i else findIndex_from p l' (i + 1)
  end.

Definition findIndex (p : A -> bool) (l : list A) : Z := findIndex_from p l 0.

(** [Array.prototype.filter((v, i, a) => ...)]: the callback receives the
    element, its index and the array itself. *)
Fixpoint filter_from (p : A -> Z -> list A -> bool) (a l : list A) (i : Z) : list A :=
  match l with
  | [] => []
  | v :: l' => if p v i a then v :: filter_from p a l' (i + 1)
               else filter_from p a l' (i + 1)
  end.

Definition filter_via (p : A -> Z -> list A -> bool) (a : list A) : list A :=
  filter_from p a a 0.

(** [Array.prototype.slice(0, n)]. *)
Definition slice0 (n : nat) (l : list A) : list A := firstn n l.
End Generic.

End JsArray.

(** ** types.ts *)

Record OptionData := mkOptionData {
  od_strikePrice : Z;
  od_expiryDate : string;
  od_underlying : string;
  openInterest : Z;
  changeinOpenInterest : Z;
  totalTradedVolume : Z;
  lastPrice : Z;
  od_underlyingValue : Z
}.

Record StrikeRecord := mkStrikeRecord {
  strikePrice : Z;
  expiryDate : string;
  CE : option OptionData;
  PE : option OptionData
}.

Inductive Trend := Bullish | Bearish | Neutral.

Record AnalysisResult := mkAnalysisResult {
  pcr : Q;
  pcrVol : Q;
  maxPain : Z;
  callOI : Z;
  putOI : Z;
  callChangeOI : Z;
  putChangeOI : Z;
  atmStrike : Z;
  trend : Trend;
  support : Z;
  resistance : Z
}.

Record Snapshot := mkSnapshot {
  id : string;
  timestamp : string;
  underlyingValue : Z;
  snap_pcr : Q;
  pcrChangeOI : option Q;
  snap_maxPain : Z;
  ceTotalOI : Z;
  peTotalOI : Z
}.

Record NSERecords := mkNSERecords {
  expiryDates : list string;
  data : list StrikeRecord;
  rec_timestamp : string;
  rec_underlyingValue : Z;
  strikePrices : list Z
}.

Record NSEResponse := mkNSEResponse {
  records : NSERecords;
  filtered_data : list StrikeRecord
}.

(** ** services/analysis.ts *)

Module Analysis.

(** [leg?.field || 0]: the field of a present leg, 0 for an absent one. *)
Definition orZero (leg : option OptionData) (field : OptionData -> Z) : Z :=
  match leg with
  | Some o => field o
  | None => 0
  end.

(** The running minimum of [calculateMaxPain] starts at [Number.MAX_VALUE],
    the greatest finite number: every integer of the model is below it. *)
Inductive Bound := MAX_VALUE | Finite (z : Z).

Definition below (x : Z) (b : Bound) : bool :=
  match b with
  | MAX_VALUE => true
  | Finite m => x <? m
  end.

(** The inner loop of [calculateMaxPain]: the loss of the writers when the
    expiry is at [expirationStrike], accumulated record by record. *)
Definition lossStep (expirationStrike : Z) (totalLoss : Z) (record : StrikeRecord) : Z :=
  let strike := strikePrice record in
  let ceOI := orZero (CE record) openInterest in
  let peOI := orZero (PE record) openInterest in
  let totalLoss :=
    if expirationStrike >? strike
    then totalLoss + (expirationStrike - strike) * ceOI else totalLoss in
  let totalLoss :=
    if strike >? expirationStrike
    then totalLoss + (strike - expirationStrike) * peOI else totalLoss in
  totalLoss.

Definition totalLossAt (data : list StrikeRecord) (expirationStrike : Z) : Z :=
  fold_left (lossStep expirationStrike) data 0.

(** The outer loop: the state is [(minTotalLoss, maxPainStrike)]. *)
Definition painStep (data : list StrikeRecord) (st : Bound * Z) (expirationStrike : Z)
  : Bound * Z :=
  let totalLoss := totalLossAt data expirationStrike in
  if below totalLoss (fst st) then (Finite totalLoss, expirationStrike) else st.

Definition calculateMaxPain (data : list StrikeRecord) : Z :=
  match data with
  | [] => 0
  | _ =>
    let strikes := JsArray.sort (fun a b => a - b) (map strikePrice data) in
    snd (fold_left (painStep data) strikes (MAX_VALUE, 0))
  end.

(** [strikes.reduce(f)] has no initial value: the first strike starts the
    accumulator and [f] runs over the others. *)
Definition getATMStrike (spotPrice : Z) (strikes : list Z) : Z :=
  match strikes with
  | [] => 0
  | first :: others =>
    fold_left
      (fun prev curr =>
         if Z.abs (curr - spotPrice) <? Z.abs (prev - spotPrice) then curr else prev)
      others first
  end.

(** The binary64 value of an integer, and the binary64 quotient of two
    integers, as the Standard Library specifies IEEE 754 arithmetic (53 bits
    of precision, round to nearest, ties to even). *)
Definition binary64 (z : Z) : spec_float := binary_normalize 53 1024 z 0 false.

Definition divide (num den : Z) : spec_float :=
  SFdiv 53 1024 (binary64 num) (binary64 den).

(** The magnitude of a finite binary64 value, as a rational. *)
Definition magnitude (x : spec_float) : Q :=
  match x with
  | S754_finite _ m e => (inject_Z (Z.pos m) * 2 ^ e)%Q
  | _ => 0%Q
  end.

(** The count of hundredths that [x.toFixed(2)] prints for the magnitude of
    the quotient [x = num / den]: the count nearest to the quotient.  When
    the exact quotient is half-way between two counts, what [toFixed] reads
    is the binary64 quotient: it prints the lower count when that lies below
    the exact quotient, and the higher when it is equal or above (of two
    counts equally near, [toFixed] takes the larger).  Away from a half-way
    point the exact quotient stands for the binary64 one: the quotient is at
    least 1 / (200 den) away from the nearest half-way point and the division
    rounds by at most one part in 2^53, so that the two lie on the same side
    of it as long as the numerator is below 2^53 / 200 in magnitude (about
    4.5e13; open interest is a count of contracts). *)
Definition hundredths (num den : Z) : Z :=
  let exact := (Qabs (inject_Z num / inject_Z den) * 100)%Q in
  let below := Qfloor exact in
  match (exact - inject_Z below ?= 1 # 2)%Q with
  | Lt => below
  | Gt => below + 1
  | Eq =>
    match (magnitude (divide num den) * 100 ?= exact)%Q with
    | Lt => below
    | _ => below + 1
    end
  end.

(** [Number((num / den).toFixed(2))]: the hundredths, with the sign of the
    quotient. *)
Definition toFixed2 (num den : Z) : Q :=
  let n := hundredths num den in
  (if Qle_bool 0 (inject_Z num / inject_Z den) then n else - n) # 100.

Definition ratio2 (num den : Z) : Q :=
  if den =? 0 then 0%Q else toFixed2 num den.

Definition Qgtb (x y : Q) : bool := negb (Qle_bool x y).
Definition Qltb (x y : Q) : bool := negb (Qle_bool y x).

(** The variables the [forEach] of [analyzeOptionChain] updates. *)
Record Totals := mkTotals {
  totalCallOI : Z;
  totalPutOI : Z;
  totalCallVol : Z;
  totalPutVol : Z;
  totalCallChangeOI : Z;
  totalPutChangeOI : Z;
  maxCallOI : Z;
  maxPutOI : Z;
  t_resistance : Z;
  t_support : Z
}.

Definition totals0 : Totals := mkTotals 0 0 0 0 0 0 0 0 0 0.

Definition bothLegs (d : StrikeRecord) : bool :=
  match CE d, PE d with
  | Some _, Some _ => true
  | _, _ => false
  end.

Definition accumulate (t : Totals) (record : StrikeRecord) : Totals :=
  let ceOI := orZero (CE record) openInterest in
  let peOI := orZero (PE record) openInterest in
  let ceVol := orZero (CE record) totalTradedVolume in
  let peVol := orZero (PE record) totalTradedVolume in
  let ceChangeOI := orZero (CE record) changeinOpenInterest in
  let peChangeOI := orZero (PE record) changeinOpenInterest in
  let newCall := ceOI >? maxCallOI t in
  let newPut := peOI >? maxPutOI t in
  {| totalCallOI := totalCallOI t + ceOI;
     totalPutOI := totalPutOI t + peOI;
     totalCallVol := totalCallVol t + ceVol;
     totalPutVol := totalPutVol t + peVol;
     totalCallChangeOI := totalCallChangeOI t + ceChangeOI;
     totalPutChangeOI := totalPutChangeOI t + peChangeOI;
     maxCallOI := if newCall then ceOI else maxCallOI t;
     maxPutOI := if newPut then peOI else maxPutOI t;
     t_resistance := if newCall then strikePrice record else t_resistance t;
     t_support := if newPut then strikePrice record else t_support t |}.

Definition classify (pcr : Q) (totalPutChangeOI totalCallChangeOI : Z) : Trend :=
  if Qgtb pcr 1.2 then Bullish
  else if Qltb pcr 0.6 then Bearish
  else if totalPutChangeOI >? totalCallChangeOI then Bullish
  else if totalCallChangeOI >? totalPutChangeOI then Bearish
  else Neutral.

Definition analyzeOptionChain (data : list StrikeRecord) (underlyingValue : Z)
  : AnalysisResult :=
  let validData := filter bothLegs data in
  let t := fold_left accumulate validData totals0 in
  let pcr := ratio2 (totalPutOI t) (totalCallOI t) in
  let pcrVol := ratio2 (totalPutVol t) (totalCallVol t) in
  let maxPain := calculateMaxPain validData in
  let atmStrike := getATMStrike underlyingValue (map strikePrice validData) in
  {| pcr := pcr;
     pcrVol := pcrVol;
     maxPain := maxPain;
     callOI := totalCallOI t;
     putOI := totalPutOI t;
     callChangeOI := totalCallChangeOI t;
     putChangeOI := totalPutChangeOI t;
     atmStrike := atmStrike;
     trend := classify pcr (totalPutChangeOI t) (totalCallChangeOI t);
     support := t_support t;
     resistance := t_resistance t |}.

(** [generateMockData].  [Math.random()] is a stream of draws: [random k n]
    is the [k]-th draw scaled by [n] and floored, and [k0] is the number of
    draws made before the call.  A strike takes ten draws, five a leg: open
    interest, change, volume, implied volatility (a field the analysis never
    reads, left out of [OptionData]) and last price. *)
Definition mockLeg (random : nat -> Z -> Z) (k : nat) (strike intrinsic basePrice : Z)
  : OptionData :=
  {| od_strikePrice := strike;
     od_expiryDate := "Demo";
     od_underlying := "NIFTY";
     openInterest := random k 100000;
     changeinOpenInterest := random (k + 1)%nat 20000 - 5000;
     totalTradedVolume := random (k + 2)%nat 500000;
     lastPrice := Z.max 0 (intrinsic + random (k + 4)%nat 50);
     od_underlyingValue := basePrice |}.

Definition mockStrike (random : nat -> Z -> Z) (k0 : nat) (basePrice startStrike : Z)
  (i : nat) : StrikeRecord :=
  let strike := startStrike + Z.of_nat i * 50 in
  {| strikePrice := strike;
     expiryDate := "Demo";
     CE := Some (mockLeg random (k0 + 10 * i)%nat strike (basePrice - strike) basePrice);
     PE := Some (mockLeg random (k0 + 10 * i + 5)%nat strike (strike - basePrice) basePrice) |}.

Definition generateMockData (random : nat -> Z -> Z) (k0 : nat) (basePrice : Z)
  : list StrikeRecord :=
  let startStrike := basePrice / 50 * 50 - 1000 in
  fold_left (fun strikes i => strikes ++ [mockStrike random k0 basePrice startStrike i])
            (seq 0 40) [].

End Analysis.

(** ** services/dataService.ts *)

Module DataService.

(** What [saveSnapshot] reads from the clock: [Date.now().toString()] and
    [new Date().toISOString()]. *)
Record Clock := mkClock {
  dateNowString : string;
  nowISOString : string
}.

(** The value under [STORAGE_KEY] in [localStorage]: absent, or the stored
    array ([JSON.stringify] then [JSON.parse] gives the array back). *)
Definition Storage := option (list Snapshot).

(** [existingData ? JSON.parse(existingData) : []]. *)
Definition parseStored (existingData : Storage) : list Snapshot :=
  match existingData with
  | Some l => l
  | None => []
  end.

(** [s.includes(c)] for a one-character needle. *)
Fixpoint includes (c : ascii) (s : string) : bool :=
  match s with
  | EmptyString => false
  | String c' s' => if Ascii.eqb c' c then true else includes c s'
  end.

Section Store.
(** [new Date(ts).getTime()]. *)
Variable getTime : string -> Z.

(** The comparator of both sorts: descending by time. *)
Definition byTimeDesc (a b : Snapshot) : Z :=
  getTime (timestamp b) - getTime (timestamp a).

Definition saveSnapshot (clock : Clock) (response : NSEResponse) (store : Storage) : Storage :=
  let analysis :=
    Analysis.analyzeOptionChain (response.(records).(data))
                                (response.(records).(rec_underlyingValue)) in
  let snapshot :=
    {| id := dateNowString clock;
       timestamp := if includes "T" (response.(records).(rec_timestamp))
                    then response.(records).(rec_timestamp)
                    else nowISOString clock;
       underlyingValue := response.(records).(rec_underlyingValue);
       snap_pcr := pcr analysis;
       pcrChangeOI := None;
       snap_maxPain := maxPain analysis;
       ceTotalOI := callOI analysis;
       peTotalOI := putOI analysis |} in
  let snapshots := parseStored store in
  let newSnapshots :=
    JsArray.slice0 100 (JsArray.sort byTimeDesc (snapshot :: snapshots)) in
  Some newSnapshots.

Definition saveBackfilledSnapshots (snapshots : list Snapshot) (store : Storage) : Storage :=
  let existingSnapshots := parseStored store in
  let combined := snapshots ++ existingSnapshots in
  let combined := JsArray.sort byTimeDesc combined in
  let unique :=
    JsArray.filter_via
      (fun v i a =>
         JsArray.findIndex (fun t => String.eqb (timestamp t) (timestamp v)) a =? i)
      combined in
  let sliced := JsArray.slice0 200 unique in
  Some sliced.
End Store.

Definition getSnapshots (store : Storage) : list Snapshot := parseStored store.

Definition clearSnapshots (store : Storage) : Storage := None.

(** One call of the store's interface, and a sequence of calls from a given
    content of the storage. *)
Inductive Op :=
| OpSave (clock : Clock) (data : NSEResponse)
| OpBackfill (snapshots : list Snapshot)
| OpClear.

Definition step (getTime : string -> Z) (store : Storage) (op : Op) : Storage :=
  match op with
  | OpSave clock data => saveSnapshot getTime clock data store
  | OpBackfill snapshots => saveBackfilledSnapshots getTime snapshots store
  | OpClear => clearSnapshots store
  end.

Definition run (getTime : string -> Z) (ops : list Op) (store : Storage) : Storage :=
  fold_left (step getTime) ops store.

End DataService.

(** ** services/trendlyne.ts *)

Module Trendlyne.

(** *** generateTimeIntervals *)

Definition digitValue (c : ascii) : option Z :=
  let n := Z.of_nat (nat_of_ascii c) in
  if (48 <=? n) && (n <=? 57) then Some (n - 48) else None.

(** [Number(s)] on a string of decimal digits; [None] is [NaN] (the strings
    the code applies it to are the fields of an "HH:MM" label). *)
Fixpoint digitsFrom (s : string) (acc : Z) : option Z :=
  match s with
  | EmptyString => Some acc
  | String c s' =>
    match digitValue c with
    | Some d => digitsFrom s' (10 * acc + d)
    | None => None
    end
  end.

Definition Number (s : string) : option Z := digitsFrom s 0.

(** [s.split(sep)] for a one-character separator. *)
Fixpoint split (sep : ascii) (s : string) : list string :=
  match s with
  | EmptyString => [EmptyString]
  | String c s' =>
    if Ascii.eqb c sep then EmptyString :: split sep s'
    else match split sep s' with
         | [] => [String c EmptyString]
         | w :: ws => String c w :: ws
         end
  end.

Definition digitChar (d : Z) : ascii := ascii_of_nat (Z.to_nat (48 + d)).

(** [n.toString()] for an integer [0 <= n]; [fuel] bounds the number of
    digits. *)
Fixpoint toStringFrom (fuel : nat) (n : Z) (acc : string) : string :=
  match fuel with
  | O => acc
  | S f =>
    let acc := String (digitChar (n mod 10)) acc in
    if n / 10 =? 0 then acc else toStringFrom f (n / 10) acc
  end.

Definition toString (n : Z) : string :=
  toStringFrom (S (Z.to_nat (Z.log2 n))) n EmptyString.

(** [s.padStart(2, '0')]. *)
Definition padStart2 (s : string) : string :=
  match s with
  | EmptyString => "00"
  | String c EmptyString => String "0" s
  | _ => s
  end.

(** A [Date] of the current day with seconds and milliseconds cleared, as the
    number of minutes since the local midnight; [setHours(h, m, 0, 0)] is
    [60 * h + m], and a value past 1439 is a time of a later day. *)
Definition getHours (t : Z) : Z := (t / 60) mod 24.
Definition getMinutes (t : Z) : Z := t mod 60.

Definition label (current : Z) : string :=
  let h := padStart2 (toString (getHours current)) in
  let m := padStart2 (toString (getMinutes current)) in
  (h ++ ":" ++ m)%string.

(** [startTime.split(':').map(Number)] destructured into two variables and
    given to [setHours]; a missing or non-numeric field makes the date
    invalid ([None]). *)
Definition setHoursOf (time : string) : option Z :=
  match map Number (split ":" time) with
  | Some hour :: Some min :: _ => Some (60 * hour + min)
  | _ => None
  end.

(** The time value of a [Date] lies within 8.64e15 ms of the epoch: a
    [setHours] or a [setMinutes] that would leave this range makes the date
    invalid, and a comparison with an invalid date is false.  The range is
    counted in minutes around the day of the clock, which lies inside it:
    [minutesBefore] from its first minute to today's midnight, and
    [minutesAfter] from today's 23:59 to its last minute. *)
Record DateRange := mkDateRange {
  minutesBefore : N;
  minutesAfter : N
}.

(** The range around the day whose local midnight is [midnight] ms after
    the epoch. *)
Definition dateRangeAt (midnight : Z) : DateRange :=
  {| minutesBefore := Z.to_N ((8640000000000000 + midnight) / 60000);
     minutesAfter := Z.to_N ((8640000000000000 - midnight) / 60000 - 1439) |}.

Definition validDate (range : DateRange) (t : Z) : bool :=
  (- Z.of_N (minutesBefore range) <=? t) && (t <=? 1439 + Z.of_N (minutesAfter range)).

(** The [while (current <= end)] loop.  [None] where the source returns no
    list: the loop is not left within [fuel] turns, or [push] throws on an
    array that is full (2^32 - 1 elements). *)
Fixpoint whileLoop (range : DateRange) (fuel : nat) (intervalMinutes current end_ : Z)
  (times : list string) : option (list string) :=
  match fuel with
  | O => None
  | S f =>
    if validDate range current && (current <=? end_)
    then
      if Z.of_nat (List.length times) <? 4294967295
      then whileLoop range f intervalMinutes (current + intervalMinutes) end_
                     (times ++ [label current])
      else None
    else Some times
  end.

(** Comparing an invalid date is false: the loop is not entered. *)
Definition generateTimeIntervals (range : DateRange) (fuel : nat)
  (startTime endTime : string) (intervalMinutes : Z) : option (list string) :=
  match setHoursOf startTime, setHoursOf endTime with
  | Some current, Some end_ =>
    if validDate range end_ then whileLoop range fuel intervalMinutes current end_ []
    else Some []
  | _, _ => Some []
  end.

(** *** fetchTrendlyneSnapshot *)

(** The raw fields of one strike in [body.oiData]. *)
Record SData := mkSData {
  callOi : option string;
  callOiChange : option string;
  callVol : option string;
  callLtp : option string;
  putOi : option string;
  putOiChange : option string;
  putVol : option string;
  putLtp : option string
}.

Record InputData := mkInputData {
  in_lp : option string;
  tradingDate : option string
}.

Record StockData := mkStockData {
  st_lp : option string
}.

(** [oiData] is the object in the order of [Object.keys]; the value under a
    key is the raw fields of the strike, or [null] ([None]). *)
Record Body := mkBody {
  oiData : option (list (string * option SData));
  inputData : option InputData;
  stockData : option StockData
}.

Record Json := mkJson {
  head_status : option string;
  body : option Body
}.

(** The outcome of the request: [fetch] or the reading of the JSON throws
    (no connection, a body that is not JSON), as does the reading of the
    head of a JSON that is [null]; the response is not [ok]; or the JSON is
    read. *)
Inductive Response := Threw | NotOk | Ok (json : Json).

(** A string field in a condition or before [||]: absent and empty are falsy. *)
Definition truthy (s : option string) : option string :=
  match s with
  | Some EmptyString => None
  | _ => s
  end.

Definition orString (s : option string) (dflt : string) : string :=
  match truthy s with
  | Some x => x
  | None => dflt
  end.

Section Parser.
Variable parseInt : string -> Z.
Variable parseFloat : string -> Z.
(** [new Date().toISOString().split('T')[0]]. *)
Variable today : string.

Definition headError (json : Json) : bool :=
  match truthy (head_status json) with
  | Some s => negb (String.eqb s "0")
  | None => false
  end.

Definition parseUnderlying (b : Body) : Z :=
  match truthy (match inputData b with Some i => in_lp i | None => None end) with
  | Some lp => parseFloat lp
  | None =>
    match truthy (match stockData b with Some s => st_lp s | None => None end) with
    | Some lp => parseFloat lp
    | None => 0
    end
  end.

Definition oiDataOf (b : Body) : list (string * option SData) :=
  match oiData b with
  | Some o => o
  | None => []
  end.

Definition keys (o : list (string * option SData)) : list string := map fst o.

Definition parseLeg (strikePrice : Z) (expiryDate symbol : string)
  (oi oiChange vol ltp : option string) (underlyingValue : Z) : OptionData :=
  {| od_strikePrice := strikePrice;
     od_expiryDate := expiryDate;
     od_underlying := symbol;
     openInterest := parseInt (orString oi "0");
     changeinOpenInterest := parseInt (orString oiChange "0");
     totalTradedVolume := parseInt (orString vol "0");
     lastPrice := parseFloat (orString ltp "0");
     od_underlyingValue := underlyingValue |}.

Definition parseStrike (expiryDate symbol : string) (underlyingValue : Z)
  (entry : string * SData) : StrikeRecord :=
  let sData := snd entry in
  let strikePrice := parseFloat (fst entry) in
  {| strikePrice := strikePrice;
     expiryDate := expiryDate;
     CE := Some (parseLeg strikePrice expiryDate symbol (callOi sData)
                          (callOiChange sData) (callVol sData) (callLtp sData)
                          underlyingValue);
     PE := Some (parseLeg strikePrice expiryDate symbol (putOi sData)
                          (putOiChange sData) (putVol sData) (putLtp sData)
                          underlyingValue) |}.

(** The [forEach] over the keys, pushing a record for each.  Reading a field
    of a [null] value throws: the loop is left and nothing is pushed
    ([None]). *)
Fixpoint parseStrikes (expiryDate symbol : string) (underlyingValue : Z)
  (o : list (string * option SData)) : option (list StrikeRecord) :=
  match o with
  | [] => Some []
  | (strikeStr, None) :: _ => None
  | (strikeStr, Some sData) :: o' =>
    match parseStrikes expiryDate symbol underlyingValue o' with
    | Some strikes =>
      Some (parseStrike expiryDate symbol underlyingValue (strikeStr, sData) :: strikes)
    | None => None
    end
  end.

(** The [try] block, and the [catch] that answers [null] to whatever is
    thrown in it. *)
Definition fetchTrendlyneSnapshot (stockId expiryDate timestamp symbol : string)
  (response : Response) : option NSEResponse :=
  match response with
  | Threw => None
  | NotOk => None
  | Ok json =>
    if headError json then None
    else
      match body json with
      | None => None
      | Some body =>
        let oiData := oiDataOf body in
        let underlyingValue := parseUnderlying body in
        let tradingDate :=
          orString (match inputData body with Some i => tradingDate i | None => None end)
                   today in
        if (underlyingValue =? 0) && (Z.of_nat (List.length (keys oiData)) =? 0) then None
        else
          match parseStrikes expiryDate symbol underlyingValue oiData with
          | None => None
          | Some strikes =>
            let strikes :=
              JsArray.sort (fun a b => strikePrice a - strikePrice b) strikes in
            Some {| records :=
                      {| expiryDates := [expiryDate];
                         data := strikes;
                         rec_timestamp :=
                           (tradingDate ++ " " ++ timestamp ++ ":00")%string;
                         rec_underlyingValue := underlyingValue;
                         strikePrices := map strikePrice strikes |};
                    filtered_data := strikes |}
          end
      end
  end.
End Parser.

(** *** getStockId *)

(** [FALLBACK_IDS] and [QUERY_MAP] as the objects are written: own keys only
    (a symbol that names an inherited property of [Object] is not modelled). *)
Definition FALLBACK_IDS : list (string * string) :=
  [("NIFTY", "1887"); ("BANKNIFTY", "1889"); ("FINNIFTY", "20374")]%string.

Definition QUERY_MAP : list (string * string) :=
  [("NIFTY", "Nifty 50"); ("BANKNIFTY", "Nifty Bank");
   ("FINNIFTY", "Nifty Fin Service")]%string.

Fixpoint lookup (table : list (string * string)) (key : string) : option string :=
  match table with
  | [] => None
  | (k, v) :: table' => if String.eqb k key then Some v else lookup table' key
  end.

(** [search query] is what the search request gives: [json.body.data[0].stock_id]
    as a string when the response is [ok] and carries one, [None] when the
    request fails, is not [ok] or carries none. *)
Definition getStockId (search : string -> option string) (symbol : string)
  : option string :=
  match truthy (lookup FALLBACK_IDS symbol) with
  | Some known => Some known
  | None =>
    let query := orString (lookup QUERY_MAP symbol) symbol in
    truthy (search query)
  end.

End Trendlyne.

(** ** constants.ts *)

Definition INDICES : list (string * string) :=
  [("NIFTY 50", "NIFTY"); ("BANK NIFTY", "BANKNIFTY"); ("FIN NIFTY", "FINNIFTY")]%string.

(** ** services/dataService.ts: fetchOptionChainData *)

Module Fetch.

(** The time of the snapshot to ask for: the clock inside the session,
    15:30 after the close and 15:30 before the open. *)
Definition cutoff (hours minutes : Z) : Z * Z :=
  if (hours >? 15) || ((hours =? 15) && (minutes >=? 30)) then (15, 30)
  else if (hours <? 9) || ((hours =? 9) && (minutes <? 15)) then (15, 30)
  else (hours, minutes).

Definition timeStr (hm : Z * Z) : string :=
  (Trendlyne.padStart2 (Trendlyne.toString (fst hm)) ++ ":"
   ++ Trendlyne.padStart2 (Trendlyne.toString (snd hm)))%string.

Definition basePriceOf (symbol : string) : Z :=
  if String.eqb symbol "NIFTY" then 22000
  else if String.eqb symbol "BANKNIFTY" then 47000
  else 20500.

Section Network.
(** The awaited results of the three requests, the stream of [Math.random()]
    and [new Date().toISOString()] at the time of the fallback. *)
Variable getStockId : string -> option string.
Variable getExpiryDates : string -> list string.
Variable fetchTrendlyneSnapshot : string -> string -> string -> string -> option NSEResponse.
Variable random : nat -> Z -> Z.
Variable nowISOString : string.

(** The [catch] branch: mock data around the base price of the symbol; the
    first draw moves the price by less than 50 either way. *)
Definition fallback (symbol : string) : NSEResponse :=
  let basePrice := basePriceOf symbol in
  let currentPrice := basePrice + (random 0 100 - 50) in
  let strikes := Analysis.generateMockData random 1 currentPrice in
  {| records :=
       {| expiryDates := ["MOCK-DATA"%string];
          data := strikes;
          rec_timestamp := nowISOString;
          rec_underlyingValue := currentPrice;
          strikePrices := map strikePrice strikes |};
     filtered_data := strikes |}.

Definition fetchOptionChainData (symbol : string) (hours minutes : Z) : NSEResponse :=
  match Trendlyne.truthy (getStockId symbol) with
  | None => fallback symbol
  | Some stockId =>
    match getExpiryDates stockId with
    | [] => fallback symbol
    | currentExpiry :: _ =>
      match fetchTrendlyneSnapshot stockId currentExpiry
                                   (timeStr (cutoff hours minutes)) symbol with
      | Some data => data
      | None => fallback symbol
      end
    end
  end.
End Network.

End Fetch.

(** ** The proxy service: the cutoff of handleApiRequest *)

Module Service.

(** Two [if] in sequence, the second reading what the first assigned. *)
Definition cutoff (hours minutes : Z) : Z * Z :=
  let hm :=
    if (hours >? 15) || ((hours =? 15) && (minutes >=? 30)) then (15, 30)
    else (hours, minutes) in
  if (fst hm <? 9) || ((fst hm =? 9) && (snd hm <? 15)) then (15, 30) else hm.

End Service.

(** ** App.tsx *)

Module App.

(** [isPostMarket ? "15:30" : `${now.getHours()}:${now.getMinutes()}`]. *)
Definition backfillEndTime (hours minutes : Z) : string :=
  let isPostMarket := (hours >? 15) || ((hours =? 15) && (minutes >=? 30)) in
  if isPostMarket then "15:30"%string
  else (Trendlyne.toString hours ++ ":" ++ Trendlyne.toString minutes)%string.

Section Backfill.
Variable getTime : string -> Z.
(** The awaited results of the requests, and [Date.now()] as a string at the
    iteration of a time label. *)
Variable getStockId : string -> option string.
Variable getExpiryDates : string -> list string.
Variable fetchTrendlyneSnapshot : string -> string -> string -> string -> option NSEResponse.
Variable dateNowAt : string -> string.

(** The summary pushed for a fetched interval. *)
Definition summarize (time : string) (response : NSEResponse) : Snapshot :=
  let resAnalysis :=
    Analysis.analyzeOptionChain (response.(records).(data))
                                (response.(records).(rec_underlyingValue)) in
  let pcrChangeOI :=
    if callChangeOI resAnalysis =? 0 then 0%Q
    else Analysis.toFixed2 (putChangeOI resAnalysis) (callChangeOI resAnalysis) in
  {| id := ("backfill-" ++ time ++ "-" ++ dateNowAt time)%string;
     timestamp := response.(records).(rec_timestamp);
     underlyingValue := response.(records).(rec_underlyingValue);
     snap_pcr := pcr resAnalysis;
     pcrChangeOI := Some pcrChangeOI;
     snap_maxPain := maxPain resAnalysis;
     ceTotalOI := callOI resAnalysis;
     peTotalOI := putOI resAnalysis |}.

(** One turn of the loop over the intervals: a failed fetch is skipped. *)
Definition visit (stockId expiry selectedIndex : string)
  (newSnapshots : list Snapshot) (time : string) : list Snapshot :=
  match fetchTrendlyneSnapshot stockId expiry time selectedIndex with
  | Some response => newSnapshots ++ [summarize time response]
  | None => newSnapshots
  end.

(** The storage after [handleBackfill]; [None] where the generation of the
    intervals does not return within [fuel] turns. *)
Definition handleBackfill (range : Trendlyne.DateRange) (fuel : nat)
  (selectedIndex : string) (hours minutes : Z)
  (store : DataService.Storage) : option DataService.Storage :=
  match Trendlyne.truthy (getStockId selectedIndex) with
  | None => Some store
  | Some stockId =>
    match getExpiryDates stockId with
    | [] => Some store
    | expiry :: _ =>
      let endTime := backfillEndTime hours minutes in
      match Trendlyne.generateTimeIntervals range fuel "09:15" endTime 15 with
      | None => None
      | Some intervals =>
        let newSnapshots :=
          fold_left (visit stockId expiry selectedIndex) intervals [] in
        Some (DataService.saveBackfilledSnapshots getTime newSnapshots store)
      end
    end
  end.
End Backfill.

(** [displayStrikes]: the strikes within 1000 of the ATM strike; nothing
    without data or with an ATM strike of 0. *)
Definition displayStrikes (response : option NSEResponse)
  (analysis : option AnalysisResult) : list StrikeRecord :=
  let atmStrike := match analysis with Some a => atmStrike a | None => 0 end in
  match response with
  | None => []
  | Some d =>
    if atmStrike =? 0 then []
    else filter (fun r => (strikePrice r >=? atmStrike - 1000)
                          && (strikePrice r <=? atmStrike + 1000))
                (d.(records).(data))
  end.

End App.

(** ** The PCR chart: the history in the order of the chart *)

Module PCRChart.

Definition chartData (getTime : string -> Z) (history : list Snapshot) : list Snapshot :=
  JsArray.sort (fun a b => getTime (timestamp a) - getTime (timestamp b)) history.

End PCRChart.

(** * Vocabulary of the properties *)

Section Vocabulary.
Import Analysis DataService Trendlyne.

(** The order a sort by [key] establishes. *)
Definition orderedBy {A : Type} (key : A -> Z) (a b : A) : Prop := key a <= key b.

(** ** Max Pain *)

Definition sumZ (l : list Z) : Z := fold_right Z.add 0 l.

(** The total writer loss at the expiry [E], as the specification words it:
    the calls of the strikes below [E] plus the puts of the strikes above
    [E]; a strike equal to [E] is in neither sum. *)
Definition writerLoss (data : list StrikeRecord) (E : Z) : Z :=
  sumZ (map (fun r => (E - strikePrice r) * orZero (CE r) openInterest)
            (filter (fun r => strikePrice r <? E) data))
  + sumZ (map (fun r => (strikePrice r - E) * orZero (PE r) openInterest)
              (filter (fun r => strikePrice r >? E) data)).

(** The outer loop keeps the first strike of least loss. *)
Definition firstLeast (f : Z -> Z) (l : list Z) (E : Z) : Prop :=
  exists l1 l2,
    l = l1 ++ E :: l2 /\
    (forall x, In x l1 -> f E < f x) /\
    (forall x, In x l2 -> f E <= f x).

(** ** Totals, support and resistance *)

Definition ceOI (r : StrikeRecord) : Z := orZero (CE r) openInterest.
Definition peOI (r : StrikeRecord) : Z := orZero (PE r) openInterest.

Definition maxStep (oi : StrikeRecord -> Z) (st : Z * Z) (record : StrikeRecord)
  : Z * Z :=
  if oi record >? fst st then (oi record, strikePrice record) else st.

(** [firstAbove oi m v out]: [out] is the pair (open interest, strike) of
    the first record of [v] whose open interest is the greatest of [v], when
    that exceeds [m]; the pair is left at [(m, s)] when none exceeds. *)
Definition firstAbove (oi : StrikeRecord -> Z) (m s : Z) (v : list StrikeRecord)
  (out : Z * Z) : Prop :=
  (out = (m, s) /\ forall x, In x v -> oi x <= m) \/
  (exists l1 x l2,
      v = l1 ++ x :: l2 /\ out = (oi x, strikePrice x) /\ m < oi x /\
      (forall y, In y l1 -> oi y < oi x) /\
      (forall y, In y l2 -> oi y <= oi x)).

(** [firstGreatest oi v s]: [s] is the strike of the first record of [v],
    in the order of [v], whose open interest [oi] is the greatest of [v],
    when that is positive; [s] is 0 when no record of [v] has a positive
    open interest. *)
Definition firstGreatest (oi : StrikeRecord -> Z) (v : list StrikeRecord) (s : Z)
  : Prop :=
  ((forall x, In x v -> oi x <= 0) /\ s = 0) \/
  (exists l1 x l2,
      v = l1 ++ x :: l2 /\ s = strikePrice x /\ 0 < oi x /\
      (forall y, In y l1 -> oi y < oi x) /\
      (forall y, In y l2 -> oi y <= oi x)).

Definition ascending (v : list StrikeRecord) : Prop :=
  StronglySorted (fun a b => strikePrice a <= strikePrice b) v.

Definition leg (strike oi : Z) : OptionData :=
  mkOptionData strike EmptyString EmptyString oi 0 0 0 0.

Definition twoLegged (strike callOi putOi : Z) : StrikeRecord :=
  mkStrikeRecord strike EmptyString (Some (leg strike callOi)) (Some (leg strike putOi)).

Definition putOnly (strike putOi : Z) : StrikeRecord :=
  mkStrikeRecord strike EmptyString None (Some (leg strike putOi)).

(** The chain of the scenario of the specification. *)
Definition scenarioChain : list StrikeRecord :=
  [twoLegged 17900 1000 500; twoLegged 18000 500 1500].

(** ** The snapshot store *)

(** Keeping, for each timestamp, the first snapshot that carries it;
    [seen] lists the timestamps already met. *)
Fixpoint keepFirst (seen : list string) (l : list Snapshot) : list Snapshot :=
  match l with
  | [] => []
  | v :: l' =>
    let rest := keepFirst (seen ++ [timestamp v]) l' in
    if existsb (fun s => String.eqb s (timestamp v)) seen then rest else v :: rest
  end.

Definition sameTimestamp (v t : Snapshot) : bool :=
  String.eqb (timestamp t) (timestamp v).

(** Most recent first: no snapshot is older than one that follows it. *)
Definition mostRecentFirst (getTime : string -> Z) (a b : Snapshot) : Prop :=
  getTime (timestamp b) <= getTime (timestamp a).

Definition saves (calls : list (Clock * NSEResponse)) : list Op :=
  map (fun c => OpSave (fst c) (snd c)) calls.

Definition responseAt (ts : string) : NSEResponse :=
  mkNSEResponse (mkNSERecords [] [] ts 22000 []) [].

Fixpoint letters (n : nat) : string :=
  match n with
  | O => EmptyString
  | S m => String "a" (letters m)
  end.

(** 101 calls, the [n]-th with the timestamp "T" followed by [n] letters;
    [sampleTime] dates a timestamp by its length. *)
Definition sampleCalls : list (Clock * NSEResponse) :=
  map (fun n => (mkClock "0" "now", responseAt (String "T" (letters n)))) (seq 0 101).

Definition sampleTime (ts : string) : Z := Z.of_nat (String.length ts).

(** ** The snapshot parser *)

(** The strike mapping is empty or absent. *)
Definition noStrikes (b : Body) : Prop := oiData b = None \/ oiData b = Some [].

(** A key of the strike mapping holds [null]. *)
Definition hasNullEntry (b : Body) : Prop := exists key, In (key, None) (oiDataOf b).

(** The raw fields under the keys, for a mapping without [null]. *)
Definition present (entries : list (string * SData)) : list (string * option SData) :=
  map (fun e => (fst e, Some (snd e))) entries.

Definition readPrice (s : string) : Z :=
  if String.eqb s "22000" then 22000 else 0.

(** A body with the price 22000 and one strike, whose value is [null]. *)
Definition nullStrike : Body :=
  mkBody (Some [("22000"%string, None)])
         (Some (mkInputData (Some "22000"%string) None)) None.

Definition priceOnly : Json :=
  mkJson None
         (Some (mkBody (Some []) (Some (mkInputData (Some "22000"%string) None)) None)).

(** ** The time intervals *)

(** The range of [Date] around 28 March 2024, whose midnight in India is
    1711564200000 ms after the epoch. *)
Definition sampleRange : DateRange := dateRangeAt 1711564200000.

(** The arithmetic sequence [s, s + step, ..., s + (n - 1) * step]. *)
Definition arithSeq (s step : Z) (n : nat) : list Z :=
  map (fun k => s + Z.of_nat k * step) (seq 0 n).

(** The number of terms [s + k * step], [0 <= k], that do not exceed [e]. *)
Definition termsUpTo (s e step : Z) : nat :=
  if s <=? e then S (Z.to_nat ((e - s) / step)) else O.

(** Reading a label back gives the time it was made from. *)
Definition readsBack (t : Z) : bool :=
  match setHoursOf (label t) with
  | Some t' => t' =? t
  | None => false
  end.

(** ** Further vocabulary of the analysis *)

(** What one record adds to the writer loss at the expiry [E]. *)
Definition lossTerm (E : Z) (r : StrikeRecord) : Z :=
  (if strikePrice r <? E then (E - strikePrice r) * orZero (CE r) openInterest else 0)
  + (if strikePrice r >? E then (strikePrice r - E) * orZero (PE r) openInterest else 0).

(** [E] is the Max Pain strike of [data]: a strike of [data] of least writer
    loss, the lowest such. *)
Definition isMaxPain (data : list StrikeRecord) (E : Z) : Prop :=
  In E (map strikePrice data) /\
  (forall E', In E' (map strikePrice data) -> writerLoss data E <= writerLoss data E') /\
  (forall E', In E' (map strikePrice data) ->
              writerLoss data E' = writerLoss data E -> E <= E').

Definition ceVol (r : StrikeRecord) : Z := orZero (CE r) totalTradedVolume.
Definition peVol (r : StrikeRecord) : Z := orZero (PE r) totalTradedVolume.
Definition ceChange (r : StrikeRecord) : Z := orZero (CE r) changeinOpenInterest.
Definition peChange (r : StrikeRecord) : Z := orZero (PE r) changeinOpenInterest.

(** A record without open interest on either side. *)
Definition noInterest (r : StrikeRecord) : Prop := ceOI r = 0 /\ peOI r = 0.

(** The result of the analysis of a chain without a two-legged record. *)
Definition emptyResult : AnalysisResult :=
  {| pcr := 0; pcrVol := 0; maxPain := 0; callOI := 0; putOI := 0;
     callChangeOI := 0; putChangeOI := 0; atmStrike := 0;
     trend := Bearish; support := 0; resistance := 0 |}.

(** ** Further vocabulary of the store *)

(** What the store keeps true of the list it holds. *)
Definition storeOk (getTime : string -> Z) (l : list Snapshot) : Prop :=
  StronglySorted (mostRecentFirst getTime) l /\ (List.length l <= 200)%nat.

(** The summary [saveSnapshot] builds from a response. *)
Definition summaryOf (clock : Clock) (response : NSEResponse) : Snapshot :=
  let analysis :=
    analyzeOptionChain (response.(records).(data))
                       (response.(records).(rec_underlyingValue)) in
  {| id := dateNowString clock;
     timestamp := if includes "T" (response.(records).(rec_timestamp))
                  then response.(records).(rec_timestamp)
                  else nowISOString clock;
     underlyingValue := response.(records).(rec_underlyingValue);
     snap_pcr := pcr analysis;
     pcrChangeOI := None;
     snap_maxPain := maxPain analysis;
     ceTotalOI := callOI analysis;
     peTotalOI := putOI analysis |}.

(** The snapshots that carry the timestamp [t]. *)
Definition carries (t : string) (s : Snapshot) : bool := String.eqb (timestamp s) t.

(** A snapshot with the identifier [i] and the timestamp [ts]. *)
Definition stamped (i ts : string) : Snapshot :=
  mkSnapshot i ts 22000 0 None 0 0 0.


(** ** Further vocabulary of the parser and of the intervals *)


(** A reading of the numeric fields for the examples: decimal digits, and 0
    for anything else. *)
Definition readDigits (s : string) : Z :=
  match Number s with
  | Some n => n
  | None => 0
  end.

(** A raw strike with the four open-interest and volume fields given. *)
Definition rawStrike (key callOpenInterest putOpenInterest : string)
  : string * option SData :=
  (key, Some (mkSData (Some callOpenInterest) None None None
                      (Some putOpenInterest) None None None)).

(** A body with two strikes, the higher first, and the price 22010. *)
Definition twoStrikes : Body :=
  mkBody (Some [rawStrike "22100" "10" "20"; rawStrike "22000" "30" "40"])
         (Some (mkInputData (Some "22010"%string) (Some "2024-03-28"%string)))
         None.

(** The time of day, in minutes, that the labels of a backfill stop at. *)
Definition backfillEnd (hours minutes : Z) : Z := Z.min (60 * hours + minutes) 930.

(** Reading back the end time of a backfill, for every minute of a day. *)
Definition endReadsBack (t : Z) : bool :=
  match setHoursOf (App.backfillEndTime (t / 60) (t mod 60)) with
  | Some e => e =? backfillEnd (t / 60) (t mod 60)
  | None => false
  end.

End Vocabulary.

(** * Properties *)

(** ** The stable sort *)

Section SortFacts.
Context {A : Type}.
Variable cmp : A -> A -> Z.
Variable key : A -> Z.
Hypothesis cmp_key : forall a b, cmp a b = key a - key b.

Lemma insert_perm (c : A -> A -> Z) (x : A) (l : list A) :
  Permutation (JsArray.insert c x l) (x :: l).
Proof.
  induction l as [|y l IH]; simpl.
  - apply Permutation_refl.
  - destruct (c x y <=? 0).
    + apply Permutation_refl.
    + apply perm_trans with (y :: x :: l).
      * apply perm_skip, IH.
      * apply perm_swap.
Qed.

Lemma sort_perm (c : A -> A -> Z) (l : list A) :
  Permutation (JsArray.sort c l) l.
Proof.
  induction l as [|x l IH]; simpl.
  - apply perm_nil.
  - apply perm_trans with (x :: JsArray.sort c l).
    + apply insert_perm.
    + apply perm_skip, IH.
Qed.

Lemma sort_length (c : A -> A -> Z) (l : list A) :
  List.length (JsArray.sort c l) = List.length l.
Proof. apply Permutation_length, sort_perm. Qed.

Lemma sort_In (c : A -> A -> Z) (l : list A) (x : A) :
  In x (JsArray.sort c l) <-> In x l.
Proof.
  split; apply Permutation_in;
    [apply sort_perm | apply Permutation_sym, sort_perm].
Qed.

Lemma insert_sorted (x : A) (l : list A) :
  StronglySorted (orderedBy key) l -> StronglySorted (orderedBy key) (JsArray.insert cmp x l).
Proof.
  induction 1 as [|y l Hs IH Hy]; simpl.
  - constructor; constructor.
  - rewrite cmp_key.
    destruct (Z.leb_spec (key x - key y) 0) as [Hle|Hgt].
    + constructor.
      * constructor; assumption.
      * constructor; [unfold orderedBy; lia|].
        eapply Forall_impl; [|exact Hy].
        unfold orderedBy; intros; lia.
    + constructor; [exact IH|].
      apply Forall_forall. intros z Hz.
      apply (Permutation_in _ (insert_perm cmp x l)) in Hz.
      destruct Hz as [<-|Hz].
      * unfold orderedBy; lia.
      * rewrite Forall_forall in Hy. apply Hy, Hz.
Qed.

Lemma sort_sorted (l : list A) : StronglySorted (orderedBy key) (JsArray.sort cmp l).
Proof.
  induction l as [|x l IH]; simpl.
  - constructor.
  - apply insert_sorted, IH.
Qed.
End SortFacts.

(** ** Max Pain *)

Section MaxPain.
Import Analysis.

Lemma fold_lossStep (E : Z) (data : list StrikeRecord) (acc : Z) :
  fold_left (lossStep E) data acc = acc + writerLoss data E.
Proof.
  revert acc. induction data as [|r data IH]; intros acc.
  - unfold writerLoss; simpl; lia.
  - simpl. rewrite IH. unfold writerLoss, lossStep. simpl.
    rewrite (Z.gtb_ltb E (strikePrice r)).
    destruct (Z.ltb_spec (strikePrice r) E) as [Hlt|Hge];
      destruct (Z.gtb_spec (strikePrice r) E) as [Hgt|Hle]; simpl; lia.
Qed.

Lemma totalLossAt_writerLoss (data : list StrikeRecord) (E : Z) :
  totalLossAt data E = writerLoss data E.
Proof. unfold totalLossAt. rewrite fold_lossStep. lia. Qed.

Lemma firstLeast_here (f : Z -> Z) (l : list Z) (E : Z) :
  (forall x, In x l -> f E <= f x) -> firstLeast f (E :: l) E.
Proof.
  intros Hall. exists [], l. split; [reflexivity|].
  split; [intros y []|exact Hall].
Qed.

Lemma firstLeast_later (f : Z -> Z) (l : list Z) (x E : Z) :
  f E < f x -> firstLeast f l E -> firstLeast f (x :: l) E.
Proof.
  intros Hlt (l1 & l2 & Hl & H1 & H2).
  exists (x :: l1), l2. split; [simpl; f_equal; exact Hl|].
  split; [|exact H2].
  intros y [<-|Hy]; [exact Hlt|apply H1, Hy].
Qed.

Lemma painLoop_finite (data : list StrikeRecord) (l : list Z) (E0 : Z) :
  let f := totalLossAt data in
  let out := fold_left (painStep data) l (Finite (f E0), E0) in
  fst out = Finite (f (snd out)) /\
  ((snd out = E0 /\ forall x, In x l -> f E0 <= f x) \/
   (f (snd out) < f E0 /\ firstLeast f l (snd out))).
Proof.
  intros f. revert E0. induction l as [|x l IH]; intros E0; simpl.
  - split; [reflexivity|]. left. split; [reflexivity|]. intros x [].
  - replace (painStep data (Finite (f E0), E0) x)
      with (if f x <? f E0 then (Finite (f x), x) else (Finite (f E0), E0))
      by reflexivity.
    destruct (Z.ltb_spec (f x) (f E0)) as [Hlt|Hge].
    + specialize (IH x). cbv zeta in IH.
      set (out := fold_left (painStep data) l (Finite (f x), x)) in *.
      destruct IH as [Hfst Hcase]. split; [exact Hfst|]. right.
      destruct Hcase as [[Heq Hall]|[Hlt' Hfirst]].
      * rewrite Heq. split; [exact Hlt|]. apply firstLeast_here, Hall.
      * split; [lia|]. apply firstLeast_later; assumption.
    + specialize (IH E0). cbv zeta in IH.
      set (out := fold_left (painStep data) l (Finite (f E0), E0)) in *.
      destruct IH as [Hfst Hcase]. split; [exact Hfst|].
      destruct Hcase as [[Heq Hall]|[Hlt' Hfirst]].
      * left. split; [exact Heq|]. intros y [<-|Hy]; [exact Hge|apply Hall, Hy].
      * right. split; [exact Hlt'|]. apply firstLeast_later; [lia|exact Hfirst].
Qed.

Lemma painLoop_first (data : list StrikeRecord) (l : list Z) (s0 : Z) :
  l <> [] ->
  firstLeast (totalLossAt data) l (snd (fold_left (painStep data) l (MAX_VALUE, s0))).
Proof.
  destruct l as [|x l]; [congruence|]. intros _. simpl.
  replace (painStep data (MAX_VALUE, s0) x)
    with (Finite (totalLossAt data x), x) by reflexivity.
  pose proof (painLoop_finite data l x) as H. cbv zeta in H.
  set (out := fold_left (painStep data) l (Finite (totalLossAt data x), x)) in *.
  destruct H as [_ [[Heq Hall]|[Hlt Hfirst]]].
  - rewrite Heq. apply firstLeast_here, Hall.
  - apply firstLeast_later; assumption.
Qed.

Lemma sorted_app_inv (l1 l2 : list Z) (E : Z) :
  StronglySorted Z.le (l1 ++ E :: l2) -> forall x, In x l2 -> E <= x.
Proof.
  induction l1 as [|y l1 IH]; simpl; intros Hs x Hx.
  - inversion Hs as [|? ? _ Hall]; subst.
    rewrite Forall_forall in Hall. apply Hall, Hx.
  - inversion Hs; subst. apply IH; assumption.
Qed.

(** C2. On the empty list [calculateMaxPain] returns 0.  On a non-empty
    list it returns one of the strikes of the list; no strike of the list
    has a smaller total writer loss (calls of the strikes below the expiry,
    puts of the strikes above it); and among the strikes of equal, least
    loss it is the first in ascending order, that is the lowest. *)
Theorem calculateMaxPain_least (data : list StrikeRecord) :
  calculateMaxPain [] = 0 /\
  (data <> [] ->
   let E := calculateMaxPain data in
   In E (map strikePrice data) /\
   (forall E', In E' (map strikePrice data) ->
               writerLoss data E <= writerLoss data E') /\
   (forall E', In E' (map strikePrice data) ->
               writerLoss data E' = writerLoss data E -> E <= E')).
Proof.
  split; [reflexivity|]. intros Hne E.
  set (strikes := JsArray.sort (fun a b => a - b) (map strikePrice data)).
  assert (HE : E = snd (fold_left (painStep data) strikes (MAX_VALUE, 0))).
  { unfold E, calculateMaxPain. destruct data; [congruence|reflexivity]. }
  assert (Hstrikes : strikes <> []).
  { intros Hnil. apply (f_equal (@List.length Z)) in Hnil.
    unfold strikes in Hnil. rewrite sort_length, length_map in Hnil.
    destruct data; [congruence|discriminate]. }
  assert (Hsorted : StronglySorted Z.le strikes).
  { apply (sort_sorted (fun a b => a - b) (fun z => z)). reflexivity. }
  destruct (painLoop_first data strikes 0 Hstrikes) as (l1 & l2 & Hl & H1 & H2).
  rewrite <- HE in Hl, H1, H2.
  assert (Hin : forall x, In x (map strikePrice data) <-> In x (l1 ++ E :: l2)).
  { intros x. rewrite <- Hl. unfold strikes. symmetry. apply sort_In. }
  split; [|split].
  - apply Hin, in_or_app. right. left. reflexivity.
  - intros E' HE'. rewrite <- !totalLossAt_writerLoss.
    apply Hin, in_app_or in HE'. destruct HE' as [HE'|[<-|HE']].
    + apply Z.lt_le_incl, H1, HE'.
    + lia.
    + apply H2, HE'.
  - intros E' HE' Htie. rewrite <- !totalLossAt_writerLoss in Htie.
    apply Hin, in_app_or in HE'. destruct HE' as [HE'|[<-|HE']].
    + apply H1 in HE'. lia.
    + lia.
    + rewrite Hl in Hsorted. apply (sorted_app_inv l1 l2 E Hsorted), HE'.
Qed.
End MaxPain.

(** ** The analysis of a chain *)

Section AnalyzeFacts.
Import Analysis.

Lemma filter_idem {A : Type} (f : A -> bool) (l : list A) :
  filter f (filter f l) = filter f l.
Proof.
  induction l as [|x l IH]; simpl; [reflexivity|].
  destruct (f x) eqn:Hx; simpl; [rewrite Hx, IH|]; auto.
Qed.

(** C10. [analyzeOptionChain] gives the same result on a list and on the
    list without the records that lack a Call leg or a Put leg: such
    records reach no field of the result. *)
Theorem analyzeOptionChain_ignores_one_legged
  (data : list StrikeRecord) (underlyingValue : Z) :
  analyzeOptionChain data underlyingValue
  = analyzeOptionChain (filter bothLegs data) underlyingValue.
Proof. unfold analyzeOptionChain. rewrite filter_idem. reflexivity. Qed.

(** C3, as the code has it.  On the empty list, for every underlying price,
    [analyzeOptionChain] returns pcr = 0, maxPain = 0, atmStrike = 0,
    support = 0 and resistance = 0, and the trend is Bearish: the ratio 0
    is below 0.6, the second branch of the cascade. *)
Theorem analyzeOptionChain_empty (underlyingValue : Z) :
  analyzeOptionChain [] underlyingValue
  = {| pcr := 0; pcrVol := 0; maxPain := 0; callOI := 0; putOI := 0;
       callChangeOI := 0; putChangeOI := 0; atmStrike := 0;
       trend := Bearish; support := 0; resistance := 0 |}.
Proof. reflexivity. Qed.

(** C3, as the claim states it, fails: the trend on the empty list is not
    Neutral. *)
Lemma analyzeOptionChain_empty_not_neutral :
  ~ (forall underlyingValue : Z,
        let r := analyzeOptionChain [] underlyingValue in
        pcr r = 0%Q /\ maxPain r = 0 /\ atmStrike r = 0 /\ support r = 0 /\
        resistance r = 0 /\ trend r = Neutral).
Proof.
  intros H. specialize (H 0). cbv zeta in H.
  destruct H as (_ & _ & _ & _ & _ & H). discriminate H.
Qed.

(** *** The trend cascade *)

Lemma Qgtb_true (x y : Q) : Qgtb x y = true <-> (y < x)%Q.
Proof.
  unfold Qgtb. rewrite negb_true_iff. split.
  - intros H. apply Qnot_le_lt. intros Hle.
    apply Qle_bool_iff in Hle. congruence.
  - intros H. destruct (Qle_bool x y) eqn:E; [|reflexivity].
    apply Qle_bool_iff in E. exfalso. exact (Qlt_not_le _ _ H E).
Qed.

Lemma Qltb_true (x y : Q) : Qltb x y = true <-> (x < y)%Q.
Proof. exact (Qgtb_true y x). Qed.

Lemma classify_cascade (p : Q) (dPut dCall : Z) :
  ((1.2 < p)%Q -> classify p dPut dCall = Bullish) /\
  (~ (1.2 < p)%Q -> (p < 0.6)%Q -> classify p dPut dCall = Bearish) /\
  (~ (1.2 < p)%Q -> ~ (p < 0.6)%Q -> dPut > dCall ->
   classify p dPut dCall = Bullish) /\
  (~ (1.2 < p)%Q -> ~ (p < 0.6)%Q -> ~ dPut > dCall -> dCall > dPut ->
   classify p dPut dCall = Bearish) /\
  (~ (1.2 < p)%Q -> ~ (p < 0.6)%Q -> ~ dPut > dCall -> ~ dCall > dPut ->
   classify p dPut dCall = Neutral).
Proof.
  unfold classify.
  destruct (Qgtb p 1.2) eqn:E1.
  { apply Qgtb_true in E1. repeat split; intros; try reflexivity; contradiction. }
  assert (N1 : ~ (1.2 < p)%Q) by (intros H; apply Qgtb_true in H; congruence).
  destruct (Qltb p 0.6) eqn:E2.
  { apply Qltb_true in E2. repeat split; intros; try reflexivity; contradiction. }
  assert (N2 : ~ (p < 0.6)%Q) by (intros H; apply Qltb_true in H; congruence).
  destruct (Z.gtb_spec dPut dCall) as [G1|G1].
  { repeat split; intros; try reflexivity; try contradiction; lia. }
  destruct (Z.gtb_spec dCall dPut) as [G2|G2];
    repeat split; intros; try reflexivity; try contradiction; lia.
Qed.

End AnalyzeFacts.

(** ** Totals, PCR, support and resistance *)

Section TotalsFacts.
Import Analysis.

Lemma fold_accumulate_totals (l : list StrikeRecord) (t : Totals) :
  let t' := fold_left accumulate l t in
  totalCallOI t' = totalCallOI t + sumZ (map ceOI l) /\
  totalPutOI t' = totalPutOI t + sumZ (map peOI l).
Proof.
  revert t. induction l as [|r l IH]; intros t; simpl.
  - split; lia.
  - destruct (IH (accumulate t r)) as [Hc Hp]. cbv zeta in Hc, Hp.
    rewrite Hc, Hp. unfold accumulate, ceOI, peOI; simpl. split; lia.
Qed.

(** *** Rounding to two decimals *)

Lemma hundredths_near (num den : Z) :
  (Qabs (inject_Z (hundredths num den) - Qabs (inject_Z num / inject_Z den) * 100)
   <= 1 # 2)%Q.
Proof.
  unfold hundredths.
  set (exact := (Qabs (inject_Z num / inject_Z den) * 100)%Q).
  pose proof (Qfloor_le exact) as Hlo.
  pose proof (Qlt_floor exact) as Hhi.
  rewrite inject_Z_plus in Hhi. change (inject_Z 1) with 1%Q in Hhi.
  apply Qabs_Qle_condition.
  destruct (exact - inject_Z (Qfloor exact) ?= 1 # 2)%Q eqn:Hcmp.
  - apply Qeq_alt in Hcmp.
    destruct (magnitude (divide num den) * 100 ?= exact)%Q;
      try (rewrite inject_Z_plus; change (inject_Z 1) with 1%Q);
      set (k := inject_Z (Qfloor exact)) in *; clearbody k; split; lra.
  - apply Qlt_alt in Hcmp.
    set (k := inject_Z (Qfloor exact)) in *. clearbody k. split; lra.
  - apply Qgt_alt in Hcmp.
    rewrite inject_Z_plus. change (inject_Z 1) with 1%Q.
    set (k := inject_Z (Qfloor exact)) in *. clearbody k. split; lra.
Qed.

Lemma toFixed2_near (num den : Z) :
  (Qabs (toFixed2 num den - inject_Z num / inject_Z den) <= 1 # 200)%Q.
Proof.
  unfold toFixed2. cbv zeta.
  pose proof (hundredths_near num den) as H.
  apply Qabs_Qle_condition in H. apply Qabs_Qle_condition.
  set (n := hundredths num den) in *.
  set (x := (inject_Z num / inject_Z den)%Q) in *.
  assert (Hcount : forall z : Z, (z # 100 == inject_Z z * (1 # 100))%Q)
    by (intros z; rewrite Qmake_Qdiv; reflexivity).
  destruct (Qle_bool 0 x) eqn:Hsign.
  - apply Qle_bool_iff in Hsign. rewrite (Qabs_pos x Hsign) in H.
    rewrite Hcount. set (q := inject_Z n) in *. clearbody q. split; lra.
  - assert (Hneg : (x <= 0)%Q).
    { apply Qlt_le_weak, Qnot_le_lt. intros Hle.
      apply Qle_bool_iff in Hle. congruence. }
    rewrite (Qabs_neg x Hneg) in H.
    rewrite Hcount, inject_Z_opp. set (q := inject_Z n) in *. clearbody q. split; lra.
Qed.

(** Quotients half-way between two hundredths: 119 / 200 = 0.595 is printed
    0.59 and 201 / 200 = 1.005 is printed 1.00, the binary64 quotients lying
    below; 1 / 8 = 0.125, which binary64 holds exactly, is printed 0.13. *)
Lemma ratio2_half_way :
  ratio2 119 200 = 59 # 100 /\ ratio2 201 200 = 100 # 100 /\ ratio2 1 8 = 13 # 100.
Proof. vm_compute. repeat split; reflexivity. Qed.

(** C5. The PCR(OI) of an analysis is computed from the sums of the Put and
    Call open interest over the records with both legs: it is 0 when the
    Call sum is 0, whatever the Put sum; otherwise it is a whole number of
    hundredths, at most half a hundredth away from Put sum / Call sum.
    Sums 1200000 and 1500000 give 0.80. *)
Theorem pcr_rounded_ratio (data : list StrikeRecord) (underlyingValue : Z) :
  let both := filter bothLegs data in
  let sumPut := sumZ (map peOI both) in
  let sumCall := sumZ (map ceOI both) in
  let r := analyzeOptionChain data underlyingValue in
  (sumCall = 0 -> pcr r = 0%Q) /\
  (sumCall <> 0 ->
   (exists n : Z, pcr r = n # 100) /\
   (Qabs (pcr r - inject_Z sumPut / inject_Z sumCall) <= 1 # 200)%Q) /\
  (sumPut = 1200000 -> sumCall = 1500000 -> pcr r = 80 # 100).
Proof.
  intros both sumPut sumCall r.
  assert (Hpcr : pcr r = ratio2 sumPut sumCall).
  { unfold r, analyzeOptionChain. simpl pcr. fold both.
    destruct (fold_accumulate_totals both totals0) as [Hc Hp].
    cbv zeta in Hc, Hp. rewrite Hc, Hp. reflexivity. }
  rewrite Hpcr. unfold ratio2. split; [|split].
  - intros ->. reflexivity.
  - intros Hne. destruct (Z.eqb_spec sumCall 0) as [|_]; [contradiction|].
    split; [eexists; reflexivity|apply toFixed2_near].
  - intros -> ->. reflexivity.
Qed.

(** *** The running maxima *)

Lemma fold_accumulate_max (l : list StrikeRecord) (t : Totals) :
  let t' := fold_left accumulate l t in
  (maxCallOI t', t_resistance t')
  = fold_left (maxStep ceOI) l (maxCallOI t, t_resistance t) /\
  (maxPutOI t', t_support t')
  = fold_left (maxStep peOI) l (maxPutOI t, t_support t).
Proof.
  revert t. induction l as [|r l IH]; intros t; simpl.
  - split; reflexivity.
  - destruct (IH (accumulate t r)) as [Hc Hp]. cbv zeta in Hc, Hp.
    rewrite Hc, Hp. unfold maxStep, accumulate, ceOI, peOI; simpl.
    split; f_equal.
    + destruct (orZero (CE r) openInterest >? maxCallOI t); reflexivity.
    + destruct (orZero (PE r) openInterest >? maxPutOI t); reflexivity.
Qed.

Lemma maxLoop (oi : StrikeRecord -> Z) (l : list StrikeRecord) (m s : Z) :
  firstAbove oi m s l (fold_left (maxStep oi) l (m, s)).
Proof.
  revert m s. induction l as [|r l IH]; intros m s; simpl.
  - left. split; [reflexivity|]. intros x [].
  - unfold maxStep at 2. simpl fst.
    destruct (Z.gtb_spec (oi r) m) as [Hgt|Hle].
    + destruct (IH (oi r) (strikePrice r))
        as [[Hout Hall]|(l1 & x & l2 & Hl & Hout & Hm & H1 & H2)].
      * right. exists [], r, l. repeat split; auto; try lia. intros y [].
      * right. exists (r :: l1), x, l2. split; [simpl; f_equal; exact Hl|].
        split; [exact Hout|]. split; [lia|]. split; [|exact H2].
        intros y [<-|Hy]; [exact Hm|apply H1, Hy].
    + destruct (IH m s)
        as [[Hout Hall]|(l1 & x & l2 & Hl & Hout & Hm & H1 & H2)].
      * left. split; [exact Hout|]. intros y [<-|Hy]; [exact Hle|apply Hall, Hy].
      * right. exists (r :: l1), x, l2. split; [simpl; f_equal; exact Hl|].
        split; [exact Hout|]. split; [exact Hm|]. split; [|exact H2].
        intros y [<-|Hy]; [lia|apply H1, Hy].
Qed.
End TotalsFacts.

Section SupportResistance.
Import Analysis.

Lemma firstAbove_firstGreatest (oi : StrikeRecord -> Z) (v : list StrikeRecord)
  (out : Z * Z) :
  firstAbove oi 0 0 v out -> firstGreatest oi v (snd out).
Proof.
  intros [[-> Hall]|(l1 & x & l2 & Hl & -> & Hm & H1 & H2)].
  - left. split; [exact Hall|reflexivity].
  - right. exists l1, x, l2. repeat split; assumption.
Qed.

Lemma StronglySorted_filter {A : Type} (R : A -> A -> Prop) (f : A -> bool)
  (l : list A) :
  StronglySorted R l -> StronglySorted R (filter f l).
Proof.
  induction 1 as [|x l Hs IH Hx]; simpl; [constructor|].
  destruct (f x); [|exact IH].
  constructor; [exact IH|].
  apply Forall_forall. intros y Hy. apply filter_In in Hy.
  rewrite Forall_forall in Hx. apply Hx, Hy.
Qed.

Lemma StronglySorted_app_tail {A : Type} (R : A -> A -> Prop) (l1 l2 : list A)
  (x : A) :
  StronglySorted R (l1 ++ x :: l2) -> forall y, In y l2 -> R x y.
Proof.
  induction l1 as [|z l1 IH]; simpl; intros Hs y Hy.
  - inversion Hs as [|? ? _ Hall]; subst.
    rewrite Forall_forall in Hall. apply Hall, Hy.
  - inversion Hs; subst. apply IH; assumption.
Qed.

Lemma firstGreatest_lowest (oi : StrikeRecord -> Z) (v : list StrikeRecord) (s : Z) :
  firstGreatest oi v s -> ascending v ->
  forall y, In y v -> 0 < oi y -> (forall z, In z v -> oi z <= oi y) ->
            s <= strikePrice y.
Proof.
  intros [[Hall _]|(l1 & x & l2 & Hl & -> & Hm & H1 & H2)] Hasc y Hy Hpos Hmax.
  - specialize (Hall y Hy). lia.
  - assert (Hx : In x v) by (rewrite Hl; apply in_or_app; right; left; reflexivity).
    specialize (Hmax x Hx).
    rewrite Hl in Hy. apply in_app_or in Hy. destruct Hy as [Hy|[<-|Hy]].
    + specialize (H1 y Hy). lia.
    + lia.
    + unfold ascending in Hasc. rewrite Hl in Hasc.
      apply (StronglySorted_app_tail _ l1 l2 x Hasc y Hy).
Qed.

(** C8, as the code has it.  Over the records with both legs, in the order
    of the list, support is the strike of the first record whose Put open
    interest is the greatest, provided that is positive, and 0 otherwise;
    resistance is the same over the Call open interest.  When the list is
    ascending by strike, no two-legged record with the greatest (positive)
    open interest has a strike below the one reported: the lower strike
    wins.  For [{17900, callOI=1000, putOI=500}, {18000, callOI=500,
    putOI=1500}] and underlying 17980: ATM = 18000, support = 18000,
    resistance = 17900. *)
Theorem support_resistance_first_greatest
  (data : list StrikeRecord) (underlyingValue : Z) :
  let both := filter bothLegs data in
  let r := analyzeOptionChain data underlyingValue in
  firstGreatest peOI both (support r) /\
  firstGreatest ceOI both (resistance r) /\
  (ascending data ->
   forall y, In y both ->
     (0 < peOI y -> (forall z, In z both -> peOI z <= peOI y) ->
      support r <= strikePrice y) /\
     (0 < ceOI y -> (forall z, In z both -> ceOI z <= ceOI y) ->
      resistance r <= strikePrice y)) /\
  (let s := analyzeOptionChain
              [twoLegged 17900 1000 500; twoLegged 18000 500 1500] 17980 in
   atmStrike s = 18000 /\ support s = 18000 /\ resistance s = 17900).
Proof.
  intros both r.
  destruct (fold_accumulate_max both totals0) as [Hc Hp]. cbv zeta in Hc, Hp.
  assert (Hsup : firstGreatest peOI both (support r)).
  { change (support r) with (snd (maxPutOI (fold_left accumulate both totals0),
                                  t_support (fold_left accumulate both totals0))).
    rewrite Hp. apply firstAbove_firstGreatest, maxLoop. }
  assert (Hres : firstGreatest ceOI both (resistance r)).
  { change (resistance r)
      with (snd (maxCallOI (fold_left accumulate both totals0),
                 t_resistance (fold_left accumulate both totals0))).
    rewrite Hc. apply firstAbove_firstGreatest, maxLoop. }
  split; [exact Hsup|]. split; [exact Hres|]. split.
  - intros Hasc y Hy.
    assert (Hboth : ascending both) by (apply StronglySorted_filter, Hasc).
    split; intros Hpos Hmax.
    + exact (firstGreatest_lowest peOI both _ Hsup Hboth y Hy Hpos Hmax).
    + exact (firstGreatest_lowest ceOI both _ Hres Hboth y Hy Hpos Hmax).
  - repeat split; reflexivity.
Qed.

(** C8, as the claim states it, fails.  With a record that has only a Put
    leg and the greatest Put open interest, support is not the strike of a
    record of greatest Put open interest; and when every open interest is
    0, support is 0, the strike of no record. *)
Lemma support_not_greatest_over_all_strikes :
  (let d := [putOnly 17900 5000; twoLegged 18000 500 1500] in
   ~ exists x, In x d /\ strikePrice x = support (analyzeOptionChain d 17980) /\
               forall y, In y d -> peOI y <= peOI x) /\
  (let d := [twoLegged 17900 0 0] in
   ~ exists x, In x d /\ strikePrice x = support (analyzeOptionChain d 17980) /\
               forall y, In y d -> peOI y <= peOI x).
Proof.
  split; cbv zeta.
  - intros (x & Hx & Hs & Hmax).
    change (support _) with 18000 in Hs.
    specialize (Hmax (putOnly 17900 5000) (or_introl eq_refl)).
    destruct Hx as [<-|[<-|[]]]; [discriminate Hs|].
    vm_compute in Hmax. apply Hmax. reflexivity.
  - intros (x & Hx & Hs & _).
    change (support _) with 0 in Hs.
    destruct Hx as [<-|[]]. discriminate Hs.
Qed.
End SupportResistance.

(** ** The snapshot store *)

Section Dedup.
Lemma findIndex_from_bounds {A : Type} (q : A -> bool) (l : list A) (k : Z) :
  existsb q l = true ->
  k <= JsArray.findIndex_from q l k < k + Z.of_nat (List.length l).
Proof.
  revert k. induction l as [|x l IH]; intros k; simpl; [discriminate|].
  destruct (q x); simpl.
  - lia.
  - intros H. specialize (IH (k + 1) H). lia.
Qed.

Lemma findIndex_from_app {A : Type} (q : A -> bool) (pre rest : list A) (k : Z) :
  existsb q pre = false ->
  JsArray.findIndex_from q (pre ++ rest) k
  = JsArray.findIndex_from q rest (k + Z.of_nat (List.length pre)).
Proof.
  revert k. induction pre as [|x pre IH]; intros k; simpl.
  - intros _. f_equal. lia.
  - destruct (q x); simpl; [discriminate|].
    intros H. rewrite (IH (k + 1) H). f_equal. lia.
Qed.

Lemma findIndex_from_app_found {A : Type} (q : A -> bool) (pre rest : list A) (k : Z) :
  existsb q pre = true ->
  JsArray.findIndex_from q (pre ++ rest) k = JsArray.findIndex_from q pre k.
Proof.
  revert k. induction pre as [|x pre IH]; intros k; simpl; [discriminate|].
  destruct (q x); simpl; [reflexivity|]. intros H. apply IH, H.
Qed.

Lemma existsb_timestamps (v : Snapshot) (pre : list Snapshot) :
  existsb (sameTimestamp v) pre
  = existsb (fun s => String.eqb s (timestamp v)) (map timestamp pre).
Proof.
  induction pre as [|x pre IH]; simpl; [reflexivity|].
  rewrite IH. reflexivity.
Qed.

(** The [filter] of [saveBackfilledSnapshots], run on the tail [l] of the
    array [pre ++ l], keeps the first snapshot of each timestamp. *)
Lemma filter_from_keepFirst (pre l : list Snapshot) :
  JsArray.filter_from
    (fun v i a => JsArray.findIndex (sameTimestamp v) a =? i)
    (pre ++ l) l (Z.of_nat (List.length pre))
  = keepFirst (map timestamp pre) l.
Proof.
  revert pre. induction l as [|v l IH]; intros pre; simpl; [reflexivity|].
  specialize (IH (pre ++ [v])).
  rewrite <- app_assoc, length_app, map_app in IH. simpl in IH.
  replace (Z.of_nat (List.length pre + 1)) with (Z.of_nat (List.length pre) + 1)
    in IH by lia.
  rewrite IH, <- existsb_timestamps. unfold JsArray.findIndex.
  destruct (existsb (sameTimestamp v) pre) eqn:Hex.
  - rewrite (findIndex_from_app_found _ pre (v :: l) 0 Hex).
    pose proof (findIndex_from_bounds _ pre 0 Hex) as Hb.
    destruct (Z.eqb_spec (JsArray.findIndex_from (sameTimestamp v) pre 0)
                         (Z.of_nat (List.length pre))); [lia|reflexivity].
  - rewrite (findIndex_from_app _ pre (v :: l) 0 Hex). simpl.
    unfold sameTimestamp at 1. rewrite String.eqb_refl.
    rewrite Z.eqb_refl. reflexivity.
Qed.

Lemma filter_via_keepFirst (a : list Snapshot) :
  JsArray.filter_via
    (fun v i a => JsArray.findIndex (sameTimestamp v) a =? i) a
  = keepFirst [] a.
Proof. exact (filter_from_keepFirst [] a). Qed.

Lemma existsb_seen (seen : list string) (s : string) :
  existsb (fun s' => String.eqb s' s) seen = true <-> In s seen.
Proof.
  rewrite existsb_exists. split.
  - intros (x & Hx & He). apply String.eqb_eq in He. subst. exact Hx.
  - intros H. exists s. split; [exact H|apply String.eqb_refl].
Qed.

Lemma keepFirst_In (seen : list string) (l : list Snapshot) (x : Snapshot) :
  In x (keepFirst seen l) -> In x l /\ ~ In (timestamp x) seen.
Proof.
  revert seen. induction l as [|v l IH]; intros seen; simpl; [intros []|].
  assert (Hrest : In x (keepFirst (seen ++ [timestamp v]) l) ->
                  In x (v :: l) /\ ~ In (timestamp x) seen).
  { intros H. apply IH in H. destruct H as [H1 H2]. split; [right; exact H1|].
    intros Hin. apply H2, in_or_app. left. exact Hin. }
  destruct (existsb _ seen) eqn:Hex; [exact Hrest|].
  intros [<-|H]; [|exact (Hrest H)].
  split; [left; reflexivity|].
  intros Hin. apply existsb_seen in Hin. congruence.
Qed.

Lemma keepFirst_NoDup (seen : list string) (l : list Snapshot) :
  NoDup (map timestamp (keepFirst seen l)).
Proof.
  revert seen. induction l as [|v l IH]; intros seen; simpl; [constructor|].
  destruct (existsb _ seen); [apply IH|].
  simpl. constructor; [|apply IH].
  intros Hin. apply in_map_iff in Hin. destruct Hin as (x & Hts & Hx).
  apply keepFirst_In in Hx. destruct Hx as [_ Hx]. apply Hx.
  apply in_or_app. right. left. symmetry. exact Hts.
Qed.


Lemma keepFirst_sorted (R : Snapshot -> Snapshot -> Prop) (seen : list string)
  (l : list Snapshot) :
  StronglySorted R l -> StronglySorted R (keepFirst seen l).
Proof.
  intros Hs. revert seen. induction Hs as [|v l Hs IH Hv]; intros seen; simpl.
  - constructor.
  - destruct (existsb _ seen); [apply IH|].
    constructor; [apply IH|].
    apply Forall_forall. intros y Hy. apply keepFirst_In in Hy.
    rewrite Forall_forall in Hv. apply Hv, Hy.
Qed.
End Dedup.

Section StoreFacts.
Import DataService.
Variable getTime : string -> Z.

Lemma StronglySorted_weaken {A : Type} (R R' : A -> A -> Prop) (l : list A) :
  (forall a b, R a b -> R' a b) -> StronglySorted R l -> StronglySorted R' l.
Proof.
  intros HR. induction 1 as [|x l Hs IH Hx]; constructor; [exact IH|].
  eapply Forall_impl; [|exact Hx]. intros a. apply HR.
Qed.

Lemma StronglySorted_firstn {A : Type} (R : A -> A -> Prop) (n : nat) (l : list A) :
  StronglySorted R l -> StronglySorted R (firstn n l).
Proof.
  intros Hs. revert n. induction Hs as [|x l Hs IH Hx]; intros [|n]; simpl;
    try constructor; [apply IH|].
  apply Forall_forall. intros y Hy.
  rewrite Forall_forall in Hx. apply Hx.
  rewrite <- (firstn_skipn n l). apply in_or_app. left. exact Hy.
Qed.

Lemma NoDup_firstn {A : Type} (n : nat) (l : list A) :
  NoDup l -> NoDup (firstn n l).
Proof.
  intros Hn. revert n. induction Hn as [|x l Hx Hn IH]; intros [|n]; simpl;
    try constructor; [|apply IH].
  intros Hin. apply Hx.
  rewrite <- (firstn_skipn n l). apply in_or_app. left. exact Hin.
Qed.

Lemma sort_byTimeDesc_sorted (l : list Snapshot) :
  StronglySorted (mostRecentFirst getTime) (JsArray.sort (byTimeDesc getTime) l).
Proof.
  apply StronglySorted_weaken
    with (R := fun a b => - getTime (timestamp a) <= - getTime (timestamp b)).
  - unfold mostRecentFirst. intros a b H. lia.
  - apply (sort_sorted (byTimeDesc getTime) (fun a => - getTime (timestamp a))).
    intros a b. unfold byTimeDesc. lia.
Qed.

(** *** The single-record operation *)

Lemma saveSnapshot_length (clock : Clock) (response : NSEResponse) (store : Storage) :
  List.length (getSnapshots (saveSnapshot getTime clock response store))
  = Nat.min 100 (S (List.length (getSnapshots store))).
Proof.
  unfold saveSnapshot, getSnapshots, JsArray.slice0. cbn [parseStored].
  rewrite length_firstn, sort_length. reflexivity.
Qed.

Lemma saveSnapshot_sorted (clock : Clock) (response : NSEResponse) (store : Storage) :
  StronglySorted (mostRecentFirst getTime)
    (getSnapshots (saveSnapshot getTime clock response store)).
Proof.
  unfold saveSnapshot, getSnapshots, JsArray.slice0. cbn [parseStored].
  apply StronglySorted_firstn, sort_byTimeDesc_sorted.
Qed.




(** *** The batch operation *)

Lemma saveBackfilledSnapshots_eq (snapshots : list Snapshot) (store : Storage) :
  getSnapshots (saveBackfilledSnapshots getTime snapshots store)
  = firstn 200
      (keepFirst [] (JsArray.sort (byTimeDesc getTime)
                                  (snapshots ++ getSnapshots store))).
Proof.
  unfold saveBackfilledSnapshots, getSnapshots, JsArray.slice0.
  cbn [parseStored].
  rewrite <- filter_via_keepFirst. reflexivity.
Qed.

(** After a batch no two stored snapshots carry the same timestamp. *)
Lemma saveBackfilledSnapshots_unique (snapshots : list Snapshot) (store : Storage) :
  NoDup (map timestamp
             (getSnapshots (saveBackfilledSnapshots getTime snapshots store))).
Proof.
  rewrite saveBackfilledSnapshots_eq, <- firstn_map.
  apply NoDup_firstn, keepFirst_NoDup.
Qed.

Lemma saveBackfilledSnapshots_sorted (snapshots : list Snapshot) (store : Storage) :
  StronglySorted (mostRecentFirst getTime)
    (getSnapshots (saveBackfilledSnapshots getTime snapshots store)).
Proof.
  rewrite saveBackfilledSnapshots_eq.
  apply StronglySorted_firstn, keepFirst_sorted, sort_byTimeDesc_sorted.
Qed.



End StoreFacts.

Section StoreClaims.
Import DataService.

(** C1, at the input where the code departs from it.  Two calls of
    [saveSnapshot] with the same timestamp "2024-03-28T15:30:00.000Z", on an
    empty storage, leave two entries with that timestamp: the single-record
    operation sorts and truncates but removes no duplicate. *)
Theorem saveSnapshot_keeps_duplicate (getTime : string -> Z) (c1 c2 : Clock) :
  map timestamp
      (getSnapshots
         (saveSnapshot getTime c2 (responseAt "2024-03-28T15:30:00.000Z")
            (saveSnapshot getTime c1 (responseAt "2024-03-28T15:30:00.000Z") None)))
  = ["2024-03-28T15:30:00.000Z"; "2024-03-28T15:30:00.000Z"]%string.
Proof.
  unfold saveSnapshot, getSnapshots, JsArray.slice0, JsArray.sort.
  cbn [parseStored fold_right JsArray.insert firstn].
  match goal with |- context [if ?c then _ else _] => destruct c end;
    reflexivity.
Qed.


End StoreClaims.

(** ** The snapshot parser *)

Section ParserClaims.
Import Trendlyne.
Variable parseInt : string -> Z.
Variable parseFloat : string -> Z.
Variable today : string.

Lemma noStrikes_oiDataOf (b : Body) : noStrikes b <-> oiDataOf b = [].
Proof.
  unfold noStrikes, oiDataOf. destruct (oiData b) as [o|].
  - split; [intros [H|H]; congruence|intros ->; right; reflexivity].
  - split; [reflexivity|intros _; left; reflexivity].
Qed.

Lemma parseStrikes_null (expiryDate symbol : string) (underlyingValue : Z)
  (o : list (string * option SData)) :
  parseStrikes parseInt parseFloat expiryDate symbol underlyingValue o = None
  <-> exists key, In (key, None) o.
Proof.
  induction o as [|[key [sData|]] o IH]; simpl.
  - split; [discriminate|intros (k & [])].
  - destruct (parseStrikes _ _ _ _ _ o) as [strikes|].
    + split; [discriminate|]. intros (k & [H|H]); [discriminate H|].
      assert (Hnone : Some strikes = None) by (apply IH; exists k; exact H).
      discriminate Hnone.
    + split; [|reflexivity]. intros _.
      destruct (proj1 IH eq_refl) as (k & Hk). exists k. right. exact Hk.
  - split; [|reflexivity]. intros _. exists key. left. reflexivity.
Qed.

Lemma parseStrikes_present (expiryDate symbol : string) (underlyingValue : Z)
  (o : list (string * option SData)) (strikes : list StrikeRecord) :
  parseStrikes parseInt parseFloat expiryDate symbol underlyingValue o = Some strikes ->
  exists entries,
    o = present entries /\
    strikes = map (parseStrike parseInt parseFloat expiryDate symbol underlyingValue)
                  entries.
Proof.
  revert strikes. induction o as [|[key [sData|]] o IH]; simpl; intros strikes H.
  - injection H as <-. exists []. split; reflexivity.
  - destruct (parseStrikes _ _ _ _ _ o) as [rest|]; [|discriminate].
    injection H as <-. destruct (IH rest eq_refl) as (entries & -> & ->).
    exists ((key, sData) :: entries). split; reflexivity.
  - discriminate.
Qed.

(** C7, as the code has it.  The parser returns null exactly when the
    request or the reading of its JSON throws; the response is not ok; its
    head reports an error; it has no body; the parsed underlying price is 0
    and the strike mapping is empty or absent, both together; or a strike of
    the mapping is null (reading it throws).  With no error in the head, an
    empty or absent mapping and the price 22000 it succeeds, with no strike
    and that price. *)
Theorem fetchTrendlyneSnapshot_null_iff
  (stockId expiryDate timestamp symbol : string) (response : Response) :
  let result :=
    fetchTrendlyneSnapshot parseInt parseFloat today
                           stockId expiryDate timestamp symbol response in
  (result = None <->
   response = Threw \/ response = NotOk \/
   exists json, response = Ok json /\
     (headError json = true \/ body json = None \/
      exists b, body json = Some b /\
        ((parseUnderlying parseFloat b = 0 /\ noStrikes b) \/ hasNullEntry b))) /\
  (forall json b,
      response = Ok json -> headError json = false -> body json = Some b ->
      noStrikes b -> parseUnderlying parseFloat b = 22000 ->
      exists r, result = Some r /\
                data (records r) = [] /\
                rec_underlyingValue (records r) = 22000).
Proof.
  intros result. split.
  - unfold result, fetchTrendlyneSnapshot. destruct response as [| |json].
    + split; [intros _; left; reflexivity|reflexivity].
    + split; [intros _; right; left; reflexivity|reflexivity].
    + destruct (headError json) eqn:Hhead.
      { split; [intros _|reflexivity]. right. right. exists json.
        split; [reflexivity|]. left. exact Hhead. }
      destruct (body json) as [b|] eqn:Hbody.
      2:{ split; [intros _|reflexivity]. right. right. exists json.
          split; [reflexivity|]. right. left. exact Hbody. }
      cbv zeta. unfold keys. rewrite length_map.
      set (u := parseUnderlying parseFloat b).
      set (o := oiDataOf b).
      assert (Hnull : parseStrikes parseInt parseFloat expiryDate symbol u o = None
                      <-> hasNullEntry b)
        by (apply parseStrikes_null).
      assert (Hguard : (u =? 0) && (Z.of_nat (List.length o) =? 0) = true
                       <-> u = 0 /\ noStrikes b).
      { rewrite andb_true_iff, Z.eqb_eq, Z.eqb_eq, noStrikes_oiDataOf. fold o.
        destruct o; simpl; split; intros [H1 H2]; split; try assumption;
          try reflexivity; try discriminate; lia. }
      split.
      * intros H. right. right. exists json. split; [reflexivity|]. right. right.
        exists b. split; [exact Hbody|].
        destruct ((u =? 0) && (Z.of_nat (List.length o) =? 0)) eqn:Hg.
        -- left. apply Hguard. reflexivity.
        -- right. apply Hnull.
           destruct (parseStrikes parseInt parseFloat expiryDate symbol u o);
             [discriminate H|reflexivity].
      * intros [H|[H|(j & Hj & [H|[H|(b' & Hb' & Hcase)]])]]; try discriminate.
        -- injection Hj as <-. congruence.
        -- injection Hj as <-. congruence.
        -- injection Hj as <-. rewrite Hbody in Hb'. injection Hb' as <-.
           destruct Hcase as [Hzero|Hentry].
           ++ apply Hguard in Hzero. rewrite Hzero. reflexivity.
           ++ apply Hnull in Hentry. rewrite Hentry.
              destruct ((u =? 0) && (Z.of_nat (List.length o) =? 0)); reflexivity.
  - intros json b -> Hhead Hbody Hno Hprice.
    unfold result, fetchTrendlyneSnapshot. rewrite Hhead, Hbody.
    apply noStrikes_oiDataOf in Hno. rewrite Hno, Hprice. simpl.
    eexists. split; [reflexivity|]. split; reflexivity.
Qed.
End ParserClaims.

Section ParserWitness.
Import Trendlyne.

Lemma parser_accepts_price_without_strikes :
  exists r,
    fetchTrendlyneSnapshot readPrice readPrice "2024-03-28"
                           "1887" "28-Mar-2024" "09:15" "NIFTY" (Ok priceOnly)
    = Some r /\
    data (records r) = [] /\ rec_underlyingValue (records r) = 22000.
Proof.
  refine (proj2 (fetchTrendlyneSnapshot_null_iff
                   readPrice readPrice "2024-03-28"
                   "1887" "28-Mar-2024" "09:15" "NIFTY" (Ok priceOnly))
                priceOnly
                (mkBody (Some []) (Some (mkInputData (Some "22000"%string) None)) None)
                _ _ _ _ _).
  - reflexivity.
  - reflexivity.
  - reflexivity.
  - right. reflexivity.
  - reflexivity.
Defined.

(** C7, as the claim states it, fails.  With the price 22000 and a strike
    mapping that holds one key, whose value is null, the parser returns null:
    the price is not 0 and the mapping is not empty. *)
Lemma parser_fails_on_null_strike :
  fetchTrendlyneSnapshot readPrice readPrice "2024-03-28"
                         "1887" "28-Mar-2024" "09:15" "NIFTY"
                         (Ok (mkJson None (Some nullStrike))) = None /\
  ~ (parseUnderlying readPrice nullStrike = 0 /\ noStrikes nullStrike).
Proof.
  split; [reflexivity|]. intros [H _]. discriminate H.
Qed.
End ParserWitness.

(** ** The time intervals of a backfill *)

Section Intervals.
Import Trendlyne.

Lemma arithSeq_succ (s step : Z) (n : nat) :
  arithSeq s step (S n) = s :: arithSeq (s + step) step n.
Proof.
  unfold arithSeq. simpl. f_equal; [lia|].
  rewrite <- seq_shift, map_map. apply map_ext. intros k. lia.
Qed.

Lemma termsUpTo_step (s e step : Z) :
  0 < step -> s <= e -> termsUpTo s e step = S (termsUpTo (s + step) e step).
Proof.
  intros Hstep Hle. unfold termsUpTo.
  destruct (Z.leb_spec s e) as [_|]; [|lia]. f_equal.
  destruct (Z.leb_spec (s + step) e) as [Hin|Hout].
  - replace (e - s) with ((e - (s + step)) + 1 * step) by lia.
    rewrite Z.div_add by lia.
    assert (0 <= (e - (s + step)) / step) by (apply Z.div_pos; lia). lia.
  - rewrite Z.div_small by lia. reflexivity.
Qed.

Lemma validDate_day (range : DateRange) (t : Z) :
  0 <= t <= 1439 -> validDate range t = true.
Proof.
  intros Ht. unfold validDate. apply andb_true_iff.
  pose proof (N2Z.is_nonneg (minutesBefore range)).
  pose proof (N2Z.is_nonneg (minutesAfter range)).
  split; apply Z.leb_le; lia.
Qed.

Lemma termsUpTo_day (s e step : Z) :
  0 < step -> 0 <= s -> e <= 1439 -> (termsUpTo s e step <= 1440)%nat.
Proof.
  intros Hstep Hs He. unfold termsUpTo. destruct (Z.leb_spec s e); [|lia].
  assert ((e - s) / step <= 1439) by (apply Z.div_le_upper_bound; nia).
  assert (0 <= (e - s) / step) by (apply Z.div_pos; lia). lia.
Qed.

Lemma whileLoop_runs (range : DateRange) (step e : Z) (fuel : nat) (current : Z)
  (times : list string) :
  0 < step -> e <= 1439 -> 0 <= current ->
  (termsUpTo current e step < fuel)%nat ->
  Z.of_nat (List.length times) + Z.of_nat (termsUpTo current e step) <= 4294967295 ->
  whileLoop range fuel step current e times
  = Some (times ++ map label (arithSeq current step (termsUpTo current e step))).
Proof.
  intros Hstep He. revert current times.
  induction fuel as [|fuel IH]; intros current times Hcurrent Hfuel Hroom; [lia|].
  cbn [whileLoop]. destruct (Z.leb_spec current e) as [Hle|Hgt].
  - rewrite (validDate_day range current) by lia. cbn [andb].
    rewrite (termsUpTo_step current e step Hstep Hle) in *.
    destruct (Z.ltb_spec (Z.of_nat (List.length times)) 4294967295); [|lia].
    rewrite IH; [|lia|lia|rewrite length_app; simpl; lia].
    rewrite arithSeq_succ. simpl. rewrite <- app_assoc. reflexivity.
  - rewrite andb_false_r. unfold termsUpTo. destruct (Z.leb_spec current e); [lia|].
    simpl. rewrite app_nil_r. reflexivity.
Qed.

Lemma generateTimeIntervals_runs (range : DateRange) (s e step : Z) (fuel : nat) :
  0 < step -> 0 <= s <= 1439 -> 0 <= e <= 1439 ->
  (termsUpTo s e step < fuel)%nat ->
  whileLoop range fuel step s e []
  = Some (map label (arithSeq s step (termsUpTo s e step))).
Proof.
  intros Hstep Hs He Hfuel.
  pose proof (termsUpTo_day s e step Hstep (proj1 Hs) (proj2 He)).
  rewrite whileLoop_runs; [reflexivity|lia|lia|lia|exact Hfuel|simpl; lia].
Qed.

Lemma arithSeq_bounds (s e step : Z) :
  0 < step ->
  (forall t, In t (arithSeq s step (termsUpTo s e step)) -> s <= t <= e) /\
  e < s + Z.of_nat (termsUpTo s e step) * step.
Proof.
  intros Hstep. unfold termsUpTo.
  destruct (Z.leb_spec s e) as [Hle|Hgt].
  - assert (Hq : 0 <= (e - s) / step) by (apply Z.div_pos; lia).
    pose proof (Z.mul_div_le (e - s) step Hstep) as Hlo.
    pose proof (Z.mul_succ_div_gt (e - s) step Hstep) as Hhi.
    split.
    + intros t Ht. unfold arithSeq in Ht. apply in_map_iff in Ht.
      destruct Ht as (k & <- & Hk). apply in_seq in Hk. nia.
    + rewrite Nat2Z.inj_succ, Z2Nat.id by lia. lia.
  - split; [intros t []|simpl; lia].
Qed.

Lemma readsBack_day : forallb readsBack (map Z.of_nat (seq 0 1440)) = true.
Proof. vm_compute. reflexivity. Qed.

Lemma setHoursOf_label (t : Z) : 0 <= t < 1440 -> setHoursOf (label t) = Some t.
Proof.
  intros Ht. pose proof readsBack_day as H.
  rewrite forallb_forall in H. specialize (H t).
  assert (Hin : In t (map Z.of_nat (seq 0 1440))).
  { apply in_map_iff. exists (Z.to_nat t). split; [lia|].
    apply in_seq. lia. }
  apply H in Hin. unfold readsBack in Hin.
  destruct (setHoursOf (label t)) as [t'|]; [|discriminate].
  apply Z.eqb_eq in Hin. congruence.
Qed.

(** C9. For a start time and an end time of the day, written "HH:MM", and a
    positive step in minutes, [generateTimeIntervals] returns (given fuel
    for its iterations) the labels of the arithmetic sequence that begins
    at the start time and advances by the step: every term is at most the
    end time, and the term after the last exceeds it.  Start "09:15", end
    "10:00", step 15 give "09:15", "09:30", "09:45", "10:00". *)
Theorem generateTimeIntervals_arithmetic (range : DateRange) (s e step : Z)
  (fuel : nat) :
  0 <= s < 1440 -> 0 <= e < 1440 -> 0 < step ->
  (termsUpTo s e step < fuel)%nat ->
  generateTimeIntervals range fuel (label s) (label e) step
  = Some (map label (arithSeq s step (termsUpTo s e step))) /\
  (forall t, In t (arithSeq s step (termsUpTo s e step)) -> s <= t <= e) /\
  e < s + Z.of_nat (termsUpTo s e step) * step /\
  generateTimeIntervals range 5 "09:15" "10:00" 15
  = Some ["09:15"; "09:30"; "09:45"; "10:00"]%string.
Proof.
  intros Hs He Hstep Hfuel.
  destruct (arithSeq_bounds s e step Hstep) as [Hin Hnext].
  split; [|split; [exact Hin|split; [exact Hnext|]]].
  - unfold generateTimeIntervals.
    rewrite (setHoursOf_label s Hs), (setHoursOf_label e He).
    rewrite (validDate_day range e) by lia.
    apply generateTimeIntervals_runs; [exact Hstep|lia|lia|exact Hfuel].
  - unfold generateTimeIntervals.
    change (setHoursOf "09:15") with (Some 555).
    change (setHoursOf "10:00") with (Some 600). cbv beta iota.
    rewrite (validDate_day range 600) by lia.
    rewrite generateTimeIntervals_runs; [reflexivity|lia|lia|lia|].
    vm_compute. repeat constructor.
Qed.

Lemma generateTimeIntervals_quarter_hours :
  generateTimeIntervals sampleRange 5 "09:15" "10:00" 15
  = Some ["09:15"; "09:30"; "09:45"; "10:00"]%string.
Proof.
  refine (proj1 (generateTimeIntervals_arithmetic sampleRange 555 600 15 5 _ _ _ _)).
  - lia.
  - lia.
  - lia.
  - vm_compute. repeat constructor.
Defined.
End Intervals.

(** ** The properties at the chain of the scenario *)

Section Scenario.
Import Analysis.

Lemma calculateMaxPain_scenario :
  In (calculateMaxPain scenarioChain) (map strikePrice scenarioChain) /\
  (forall E', In E' (map strikePrice scenarioChain) ->
              writerLoss scenarioChain (calculateMaxPain scenarioChain)
              <= writerLoss scenarioChain E') /\
  (forall E', In E' (map strikePrice scenarioChain) ->
              writerLoss scenarioChain E'
              = writerLoss scenarioChain (calculateMaxPain scenarioChain) ->
              calculateMaxPain scenarioChain <= E').
Proof.
  refine (proj2 (calculateMaxPain_least scenarioChain) _). discriminate.
Defined.

Lemma pcr_scenario :
  pcr (analyzeOptionChain [twoLegged 22000 1500000 1200000] 22000) = 80 # 100.
Proof.
  refine (proj2 (proj2 (pcr_rounded_ratio [twoLegged 22000 1500000 1200000] 22000))
                _ _); reflexivity.
Defined.

Lemma support_scenario :
  support (analyzeOptionChain scenarioChain 17980)
  <= strikePrice (twoLegged 18000 500 1500).
Proof.
  refine (proj1 (proj1 (proj2 (proj2
            (support_resistance_first_greatest scenarioChain 17980))) _
            (twoLegged 18000 500 1500) _) _ _).
  - repeat constructor; simpl; lia.
  - right. left. reflexivity.
  - reflexivity.
  - intros z [<-|[<-|[]]]; vm_compute; discriminate.
Defined.
End Scenario.

(** * Further properties of the analysis *)

Section NearestStrike.
Import Analysis.

Lemma leastLoop (g : Z -> Z) (l : list Z) (x0 : Z) :
  let out := fold_left (fun prev curr => if g curr <? g prev then curr else prev) l x0 in
  (out = x0 /\ forall y, In y l -> g x0 <= g y) \/
  (g out < g x0 /\ firstLeast g l out).
Proof.
  revert x0. induction l as [|x l IH]; intros x0; simpl.
  - left. split; [reflexivity|]. intros y [].
  - destruct (Z.ltb_spec (g x) (g x0)) as [Hlt|Hge].
    + specialize (IH x). cbv zeta in IH.
      set (out := fold_left _ l x) in *.
      right. destruct IH as [[Heq Hall]|[Hlt' Hfirst]].
      * rewrite Heq. split; [exact Hlt|]. apply firstLeast_here, Hall.
      * split; [lia|]. apply firstLeast_later; assumption.
    + specialize (IH x0). cbv zeta in IH.
      set (out := fold_left _ l x0) in *.
      destruct IH as [[Heq Hall]|[Hlt' Hfirst]].
      * left. split; [exact Heq|]. intros y [<-|Hy]; [exact Hge|apply Hall, Hy].
      * right. split; [exact Hlt'|]. apply firstLeast_later; [lia|exact Hfirst].
Qed.

Lemma getATMStrike_firstLeast (spotPrice : Z) (strikes : list Z) :
  strikes <> [] ->
  firstLeast (fun s => Z.abs (s - spotPrice)) strikes (getATMStrike spotPrice strikes).
Proof.
  destruct strikes as [|first others]; [congruence|]. intros _. simpl.
  destruct (leastLoop (fun s => Z.abs (s - spotPrice)) others first)
    as [[Heq Hall]|[Hlt Hfirst]]; cbv beta in *.
  - rewrite Heq. apply firstLeast_here, Hall.
  - apply firstLeast_later; assumption.
Qed.

Lemma firstLeast_In (f : Z -> Z) (l : list Z) (E : Z) :
  firstLeast f l E -> In E l /\ forall x, In x l -> f E <= f x.
Proof.
  intros (l1 & l2 & -> & H1 & H2). split.
  - apply in_or_app. right. left. reflexivity.
  - intros x Hx. apply in_app_or in Hx. destruct Hx as [Hx|[<-|Hx]].
    + apply Z.lt_le_incl, H1, Hx.
    + lia.
    + apply H2, Hx.
Qed.

(** X1. On a non-empty list [getATMStrike] returns a strike of the list that
    is nearest to the spot price; every strike before it in the list is
    strictly farther (the first of the nearest wins); and when the spot price
    is itself a strike of the list, it is the result. *)
Theorem getATMStrike_nearest (spotPrice : Z) (strikes : list Z) :
  strikes <> [] ->
  let atm := getATMStrike spotPrice strikes in
  In atm strikes /\
  (forall s, In s strikes -> Z.abs (atm - spotPrice) <= Z.abs (s - spotPrice)) /\
  (exists before after,
      strikes = before ++ atm :: after /\
      forall s, In s before -> Z.abs (atm - spotPrice) < Z.abs (s - spotPrice)) /\
  (In spotPrice strikes -> atm = spotPrice).
Proof.
  intros Hne atm.
  pose proof (getATMStrike_firstLeast spotPrice strikes Hne) as Hfirst.
  fold atm in Hfirst.
  destruct (firstLeast_In _ _ _ Hfirst) as [Hin Hmin].
  split; [exact Hin|]. split; [exact Hmin|]. split.
  - destruct Hfirst as (l1 & l2 & Hl & H1 & _). exists l1, l2. split; assumption.
  - intros Hspot. specialize (Hmin spotPrice Hspot). cbv beta in Hmin. lia.
Qed.

Lemma getATMStrike_nearest_scenario :
  In (getATMStrike 17950 [17900; 18000]) [17900; 18000].
Proof.
  refine (proj1 (getATMStrike_nearest 17950 [17900; 18000] _)). discriminate.
Defined.
End NearestStrike.

Section MaxPainOrder.
Import Analysis.

Lemma calculateMaxPain_isMaxPain (data : list StrikeRecord) :
  data <> [] -> isMaxPain data (calculateMaxPain data).
Proof.
  intros Hne.
  set (strikes := JsArray.sort (fun a b => a - b) (map strikePrice data)).
  assert (HE : calculateMaxPain data
               = snd (fold_left (painStep data) strikes (MAX_VALUE, 0))).
  { unfold calculateMaxPain. destruct data; [congruence|reflexivity]. }
  assert (Hstrikes : strikes <> []).
  { intros Hnil. apply (f_equal (@List.length Z)) in Hnil.
    unfold strikes in Hnil. rewrite sort_length, length_map in Hnil.
    destruct data; [congruence|discriminate]. }
  assert (Hsorted : StronglySorted Z.le strikes).
  { apply (sort_sorted (fun a b => a - b) (fun z => z)). reflexivity. }
  pose proof (painLoop_first data strikes 0 Hstrikes) as Hfirst.
  rewrite <- HE in Hfirst.
  destruct (firstLeast_In _ _ _ Hfirst) as [Hin Hmin].
  assert (Hiff : forall x, In x (map strikePrice data) <-> In x strikes)
    by (intros x; symmetry; apply sort_In).
  split; [apply Hiff, Hin|]. split.
  - intros E' HE'. rewrite <- !totalLossAt_writerLoss. apply Hmin, Hiff, HE'.
  - intros E' HE' Htie. rewrite <- !totalLossAt_writerLoss in Htie.
    destruct Hfirst as (l1 & l2 & Hl & H1 & _).
    apply Hiff in HE'. rewrite Hl in HE'. apply in_app_or in HE'.
    destruct HE' as [HE'|[<-|HE']].
    + apply H1 in HE'. lia.
    + lia.
    + rewrite Hl in Hsorted. apply (sorted_app_inv l1 l2 _ Hsorted), HE'.
Qed.

Lemma isMaxPain_unique (data : list StrikeRecord) (E1 E2 : Z) :
  isMaxPain data E1 -> isMaxPain data E2 -> E1 = E2.
Proof.
  intros (Hin1 & Hmin1 & Hlow1) (Hin2 & Hmin2 & Hlow2).
  pose proof (Hmin1 E2 Hin2). pose proof (Hmin2 E1 Hin1).
  assert (E1 <= E2) by (apply Hlow1; [exact Hin2|lia]).
  assert (E2 <= E1) by (apply Hlow2; [exact Hin1|lia]).
  lia.
Qed.

Lemma writerLoss_terms (data : list StrikeRecord) (E : Z) :
  writerLoss data E = sumZ (map (lossTerm E) data).
Proof.
  unfold writerLoss. induction data as [|r data IH]; simpl; [reflexivity|].
  rewrite <- IH. unfold lossTerm.
  destruct (strikePrice r <? E); destruct (strikePrice r >? E); simpl; lia.
Qed.

Lemma sumZ_perm (l l' : list Z) : Permutation l l' -> sumZ l = sumZ l'.
Proof. induction 1; simpl; lia. Qed.

Lemma Permutation_filter {A : Type} (f : A -> bool) (l l' : list A) :
  Permutation l l' -> Permutation (filter f l) (filter f l').
Proof.
  induction 1 as [|x l l' _ IH|x y l|l l' l'' _ IH1 _ IH2]; simpl.
  - apply perm_nil.
  - destruct (f x); [apply perm_skip|]; exact IH.
  - destruct (f x); destruct (f y);
      try apply Permutation_refl. apply perm_swap.
  - apply perm_trans with (filter f l'); assumption.
Qed.

Lemma writerLoss_perm (data data' : list StrikeRecord) (E : Z) :
  Permutation data data' -> writerLoss data E = writerLoss data' E.
Proof.
  intros Hp. rewrite !writerLoss_terms. apply sumZ_perm, Permutation_map, Hp.
Qed.

Lemma isMaxPain_perm (data data' : list StrikeRecord) (E : Z) :
  Permutation data data' -> isMaxPain data E -> isMaxPain data' E.
Proof.
  intros Hp (Hin & Hmin & Hlow).
  assert (Hs : forall x, In x (map strikePrice data') -> In x (map strikePrice data)).
  { intros x. apply Permutation_in, Permutation_sym, Permutation_map, Hp. }
  split; [|split].
  - apply (Permutation_in _ (Permutation_map strikePrice Hp)), Hin.
  - intros E' HE'. rewrite <- !(writerLoss_perm data data' _ Hp). apply Hmin, Hs, HE'.
  - intros E' HE'. rewrite <- !(writerLoss_perm data data' _ Hp). apply Hlow, Hs, HE'.
Qed.

Lemma calculateMaxPain_perm (data data' : list StrikeRecord) :
  Permutation data data' -> calculateMaxPain data = calculateMaxPain data'.
Proof.
  intros Hp. destruct data as [|r data].
  - apply Permutation_nil in Hp. subst. reflexivity.
  - assert (Hne' : data' <> []).
    { intros ->. apply Permutation_sym, Permutation_nil in Hp. discriminate. }
    apply (isMaxPain_unique data').
    + apply (isMaxPain_perm (r :: data)); [exact Hp|].
      apply calculateMaxPain_isMaxPain. discriminate.
    + apply calculateMaxPain_isMaxPain, Hne'.
Qed.
End MaxPainOrder.

Section MaxPainPadding.
Import Analysis.

Lemma sumZ_le {A : Type} (f g : A -> Z) (l : list A) :
  (forall r, In r l -> f r <= g r) -> sumZ (map f l) <= sumZ (map g l).
Proof.
  induction l as [|x l IH]; simpl; intros H; [lia|].
  pose proof (H x (or_introl eq_refl)).
  assert (sumZ (map f l) <= sumZ (map g l)) by (apply IH; intros r Hr; apply H; right; exact Hr).
  lia.
Qed.

Lemma sumZ_lt {A : Type} (f g : A -> Z) (l : list A) :
  (forall r, In r l -> f r <= g r) -> (exists r, In r l /\ f r < g r) ->
  sumZ (map f l) < sumZ (map g l).
Proof.
  induction l as [|x l IH]; simpl; intros H (r & Hr & Hlt); [destruct Hr|].
  pose proof (H x (or_introl eq_refl)) as Hx.
  assert (Hl : forall r, In r l -> f r <= g r) by (intros r' Hr'; apply H; right; exact Hr').
  pose proof (sumZ_le f g l Hl).
  destruct Hr as [->|Hr]; [lia|].
  assert (sumZ (map f l) < sumZ (map g l)) by (apply IH; [exact Hl|exists r; split; assumption]).
  lia.
Qed.

Lemma highest_strike (data : list StrikeRecord) :
  data <> [] ->
  exists m, In m data /\ forall r, In r data -> strikePrice r <= strikePrice m.
Proof.
  induction data as [|x data IH]; [congruence|]. intros _.
  destruct data as [|y data].
  - exists x. split; [left; reflexivity|]. intros r [<-|[]]. lia.
  - destruct IH as (m & Hm & Hall); [discriminate|].
    destruct (Z.le_gt_cases (strikePrice x) (strikePrice m)) as [Hle|Hgt].
    + exists m. split; [right; exact Hm|]. intros r [<-|Hr]; [exact Hle|apply Hall, Hr].
    + exists x. split; [left; reflexivity|].
      intros r [<-|Hr]; [lia|]. specialize (Hall r Hr). lia.
Qed.

Lemma lowest_strike (data : list StrikeRecord) :
  data <> [] ->
  exists m, In m data /\ forall r, In r data -> strikePrice m <= strikePrice r.
Proof.
  induction data as [|x data IH]; [congruence|]. intros _.
  destruct data as [|y data].
  - exists x. split; [left; reflexivity|]. intros r [<-|[]]. lia.
  - destruct IH as (m & Hm & Hall); [discriminate|].
    destruct (Z.le_gt_cases (strikePrice m) (strikePrice x)) as [Hle|Hgt].
    + exists m. split; [right; exact Hm|]. intros r [<-|Hr]; [exact Hle|apply Hall, Hr].
    + exists x. split; [left; reflexivity|].
      intros r [<-|Hr]; [lia|]. specialize (Hall r Hr). lia.
Qed.

Lemma writerLoss_padded (z : StrikeRecord) (data : list StrikeRecord) (E : Z) :
  noInterest z -> writerLoss (z :: data) E = writerLoss data E.
Proof.
  intros [Hc Hp]. rewrite !writerLoss_terms. simpl.
  unfold lossTerm at 1. unfold ceOI in Hc. unfold peOI in Hp. rewrite Hc, Hp.
  destruct (strikePrice z <? E); destruct (strikePrice z >? E); lia.
Qed.

(** A record without open interest joins the chain: the strike that was the
    Max Pain stays so when the loss at the new strike is not below the least
    loss, and is above it if the new strike is lower. *)
Lemma isMaxPain_padded (z : StrikeRecord) (data : list StrikeRecord) (E : Z) :
  noInterest z -> isMaxPain data E ->
  writerLoss data E <= writerLoss data (strikePrice z) ->
  (strikePrice z < E -> writerLoss data E < writerLoss data (strikePrice z)) ->
  isMaxPain (z :: data) E.
Proof.
  intros Hz (Hin & Hmin & Hlow) Hle Hlt. split; [right; exact Hin|]. split.
  - intros E' HE'. rewrite !(writerLoss_padded z data _ Hz).
    destruct HE' as [<-|HE']; [exact Hle|apply Hmin, HE'].
  - intros E' HE'. rewrite !(writerLoss_padded z data _ Hz). intros Htie.
    destruct HE' as [<-|HE']; [|apply Hlow; assumption].
    destruct (Z.le_gt_cases E (strikePrice z)) as [|Hgt]; [assumption|].
    specialize (Hlt Hgt). lia.
Qed.

(** X2. Adding to a non-empty chain a record without open interest, at a
    strike above every strike of the chain, at any place in the list, leaves
    the Max Pain strike unchanged, provided no Call open interest of the
    chain is negative. *)
Theorem calculateMaxPain_padded_above
  (z : StrikeRecord) (data data' : list StrikeRecord) :
  data <> [] ->
  noInterest z ->
  (forall r, In r data -> strikePrice r < strikePrice z) ->
  (forall r, In r data -> 0 <= ceOI r) ->
  Permutation data' (z :: data) ->
  calculateMaxPain data' = calculateMaxPain data.
Proof.
  intros Hne Hz Habove Hpos Hp.
  rewrite (calculateMaxPain_perm data' (z :: data) Hp).
  pose proof (calculateMaxPain_isMaxPain data Hne) as HE.
  apply (isMaxPain_unique (z :: data)).
  - apply calculateMaxPain_isMaxPain. discriminate.
  - apply isMaxPain_padded; [exact Hz|exact HE| |].
    + destruct (highest_strike data Hne) as (m & Hm & Hall).
      destruct HE as (_ & Hmin & _).
      apply Z.le_trans with (writerLoss data (strikePrice m)).
      * apply Hmin, in_map, Hm.
      * rewrite !writerLoss_terms. apply sumZ_le. intros r Hr.
        pose proof (Habove m Hm) as Hmz.
        specialize (Hall r Hr). specialize (Habove r Hr). specialize (Hpos r Hr).
        unfold ceOI in Hpos. unfold lossTerm.
        destruct (Z.ltb_spec (strikePrice r) (strikePrice m));
          destruct (Z.gtb_spec (strikePrice r) (strikePrice m));
          destruct (Z.ltb_spec (strikePrice r) (strikePrice z));
          destruct (Z.gtb_spec (strikePrice r) (strikePrice z)); nia.
    + intros Hlow. destruct HE as (Hin & _ & _).
      apply in_map_iff in Hin. destruct Hin as (r & Hr & Hin).
      specialize (Habove r Hin). lia.
Qed.

(** X3. Adding to a chain a record without open interest, at a strike below
    every strike of the chain, at any place in the list, leaves the Max Pain
    strike unchanged, provided no Put open interest of the chain is negative
    and one at least is positive. *)
Theorem calculateMaxPain_padded_below
  (z : StrikeRecord) (data data' : list StrikeRecord) :
  noInterest z ->
  (forall r, In r data -> strikePrice z < strikePrice r) ->
  (forall r, In r data -> 0 <= peOI r) ->
  (exists r, In r data /\ 0 < peOI r) ->
  Permutation data' (z :: data) ->
  calculateMaxPain data' = calculateMaxPain data.
Proof.
  intros Hz Hbelow Hpos Hsome Hp.
  assert (Hne : data <> []) by (destruct Hsome as (r & Hr & _); intros ->; destruct Hr).
  rewrite (calculateMaxPain_perm data' (z :: data) Hp).
  pose proof (calculateMaxPain_isMaxPain data Hne) as HE.
  assert (Hlt : writerLoss data (calculateMaxPain data) < writerLoss data (strikePrice z)).
  { destruct (lowest_strike data Hne) as (m & Hm & Hall).
    destruct HE as (_ & Hmin & _).
    apply Z.le_lt_trans with (writerLoss data (strikePrice m)).
    - apply Hmin, in_map, Hm.
    - rewrite !writerLoss_terms.
      assert (Hbm : strikePrice z < strikePrice m) by apply Hbelow, Hm.
      apply sumZ_lt.
      + intros r Hr.
        specialize (Hall r Hr). specialize (Hbelow r Hr). specialize (Hpos r Hr).
        unfold peOI in Hpos. unfold lossTerm.
        destruct (Z.ltb_spec (strikePrice r) (strikePrice m));
          destruct (Z.gtb_spec (strikePrice r) (strikePrice m));
          destruct (Z.ltb_spec (strikePrice r) (strikePrice z));
          destruct (Z.gtb_spec (strikePrice r) (strikePrice z)); nia.
      + destruct Hsome as (r & Hr & Hput). exists r. split; [exact Hr|].
        specialize (Hall r Hr). specialize (Hbelow r Hr).
        unfold peOI in Hput. unfold lossTerm.
        destruct (Z.ltb_spec (strikePrice r) (strikePrice m));
          destruct (Z.gtb_spec (strikePrice r) (strikePrice m));
          destruct (Z.ltb_spec (strikePrice r) (strikePrice z));
          destruct (Z.gtb_spec (strikePrice r) (strikePrice z)); nia. }
  apply (isMaxPain_unique (z :: data)).
  - apply calculateMaxPain_isMaxPain. discriminate.
  - apply isMaxPain_padded; [exact Hz|exact HE|lia|intros _; exact Hlt].
Qed.

Lemma calculateMaxPain_padded_above_scenario :
  calculateMaxPain [twoLegged 17900 1000 500; twoLegged 18100 0 0;
                    twoLegged 18000 500 1500]
  = calculateMaxPain scenarioChain.
Proof.
  apply (calculateMaxPain_padded_above (twoLegged 18100 0 0)).
  - discriminate.
  - split; reflexivity.
  - intros r [<-|[<-|[]]]; reflexivity.
  - intros r [<-|[<-|[]]]; discriminate.
  - apply perm_swap.
Defined.

Lemma calculateMaxPain_padded_below_scenario :
  calculateMaxPain [twoLegged 17900 1000 500; twoLegged 17800 0 0;
                    twoLegged 18000 500 1500]
  = calculateMaxPain scenarioChain.
Proof.
  apply (calculateMaxPain_padded_below (twoLegged 17800 0 0)).
  - split; reflexivity.
  - intros r [<-|[<-|[]]]; reflexivity.
  - intros r [<-|[<-|[]]]; discriminate.
  - exists (twoLegged 17900 1000 500). split; [left; reflexivity|reflexivity].
  - apply perm_swap.
Defined.
End MaxPainPadding.

Section AnalysisFields.
Import Analysis.

Lemma fold_accumulate_flows (l : list StrikeRecord) (t : Totals) :
  let t' := fold_left accumulate l t in
  totalCallVol t' = totalCallVol t + sumZ (map ceVol l) /\
  totalPutVol t' = totalPutVol t + sumZ (map peVol l) /\
  totalCallChangeOI t' = totalCallChangeOI t + sumZ (map ceChange l) /\
  totalPutChangeOI t' = totalPutChangeOI t + sumZ (map peChange l).
Proof.
  revert t. induction l as [|r l IH]; intros t; simpl.
  - repeat split; lia.
  - destruct (IH (accumulate t r)) as (H1 & H2 & H3 & H4). cbv zeta in H1, H2, H3, H4.
    rewrite H1, H2, H3, H4.
    unfold accumulate, ceVol, peVol, ceChange, peChange; simpl. repeat split; lia.
Qed.

(** Every field of the result but support, resistance and the ATM strike, in
    terms of the sums over the two-legged records. *)
Lemma analysis_by_sums (data : list StrikeRecord) (underlyingValue : Z) :
  let both := filter bothLegs data in
  let r := analyzeOptionChain data underlyingValue in
  callOI r = sumZ (map ceOI both) /\
  putOI r = sumZ (map peOI both) /\
  callChangeOI r = sumZ (map ceChange both) /\
  putChangeOI r = sumZ (map peChange both) /\
  pcr r = ratio2 (sumZ (map peOI both)) (sumZ (map ceOI both)) /\
  pcrVol r = ratio2 (sumZ (map peVol both)) (sumZ (map ceVol both)) /\
  trend r = classify (pcr r) (sumZ (map peChange both)) (sumZ (map ceChange both)) /\
  maxPain r = calculateMaxPain both.
Proof.
  intros both r.
  destruct (fold_accumulate_totals both totals0) as (Hc & Hp).
  destruct (fold_accumulate_flows both totals0) as (Hcv & Hpv & Hcc & Hpc).
  cbv zeta in Hc, Hp, Hcv, Hpv, Hcc, Hpc. simpl in Hc, Hp, Hcv, Hpv, Hcc, Hpc.
  unfold r, analyzeOptionChain. fold both. cbn [callOI putOI callChangeOI putChangeOI
    pcr pcrVol trend maxPain].
  rewrite Hc, Hp, Hcv, Hpv, Hcc, Hpc. repeat split; reflexivity.
Qed.

(** X4. The totals of an analysis are the sums, over the records with both
    legs, of the Call and Put open interest and of their changes; the volume
    PCR is 0 when the Call volume sum is 0, and otherwise a whole number of
    hundredths at most half a hundredth away from Put volume / Call volume. *)
Theorem analysis_totals (data : list StrikeRecord) (underlyingValue : Z) :
  let both := filter bothLegs data in
  let r := analyzeOptionChain data underlyingValue in
  callOI r = sumZ (map ceOI both) /\
  putOI r = sumZ (map peOI both) /\
  callChangeOI r = sumZ (map ceChange both) /\
  putChangeOI r = sumZ (map peChange both) /\
  (sumZ (map ceVol both) = 0 -> pcrVol r = 0%Q) /\
  (sumZ (map ceVol both) <> 0 ->
   (exists n : Z, pcrVol r = n # 100) /\
   (Qabs (pcrVol r - inject_Z (sumZ (map peVol both)) / inject_Z (sumZ (map ceVol both)))
    <= 1 # 200)%Q).
Proof.
  intros both r.
  destruct (analysis_by_sums data underlyingValue)
    as (H1 & H2 & H3 & H4 & _ & Hvol & _ & _).
  fold both in H1, H2, H3, H4, Hvol. fold r in H1, H2, H3, H4, Hvol.
  repeat (split; [assumption|]). rewrite Hvol. unfold ratio2. split.
  - intros ->. reflexivity.
  - intros Hne. destruct (Z.eqb_spec (sumZ (map ceVol both)) 0) as [|_]; [contradiction|].
    split; [eexists; reflexivity|apply toFixed2_near].
Qed.

Lemma analysis_totals_scenario :
  exists n : Z,
    pcrVol (analyzeOptionChain
              [mkStrikeRecord 18000 "e"
                 (Some (mkOptionData 18000 "e" "N" 10 0 300 0 0))
                 (Some (mkOptionData 18000 "e" "N" 20 0 100 0 0))] 18000)
    = n # 100.
Proof.
  refine (proj1 (proj2 (proj2 (proj2 (proj2 (proj2
            (analysis_totals _ 18000))))) _)).
  discriminate.
Defined.

(** X5. The order of the records does not matter to the Max Pain strike, nor
    to the totals, both ratios, the Max Pain and the trend of an analysis. *)
Theorem analysis_order_independent (data data' : list StrikeRecord) (underlyingValue : Z) :
  Permutation data data' ->
  let r := analyzeOptionChain data underlyingValue in
  let r' := analyzeOptionChain data' underlyingValue in
  calculateMaxPain data = calculateMaxPain data' /\
  pcr r = pcr r' /\ pcrVol r = pcrVol r' /\ maxPain r = maxPain r' /\
  callOI r = callOI r' /\ putOI r = putOI r' /\
  callChangeOI r = callChangeOI r' /\ putChangeOI r = putChangeOI r' /\
  trend r = trend r'.
Proof.
  intros Hp r r'.
  pose proof (Permutation_filter bothLegs data data' Hp) as Hb.
  destruct (analysis_by_sums data underlyingValue)
    as (H1 & H2 & H3 & H4 & H5 & H6 & H7 & H8).
  destruct (analysis_by_sums data' underlyingValue)
    as (H1' & H2' & H3' & H4' & H5' & H6' & H7' & H8').
  fold r in H1, H2, H3, H4, H5, H6, H7, H8.
  fold r' in H1', H2', H3', H4', H5', H6', H7', H8'.
  assert (S : forall f : StrikeRecord -> Z,
             sumZ (map f (filter bothLegs data)) = sumZ (map f (filter bothLegs data')))
    by (intros f; apply sumZ_perm, Permutation_map, Hb).
  assert (Hpcr : pcr r = pcr r') by (rewrite H5, H5', (S peOI), (S ceOI); reflexivity).
  split; [apply calculateMaxPain_perm, Hp|].
  split; [exact Hpcr|].
  split; [rewrite H6, H6', (S peVol), (S ceVol); reflexivity|].
  split; [rewrite H8, H8'; apply calculateMaxPain_perm, Hb|].
  split; [rewrite H1, H1'; apply S|].
  split; [rewrite H2, H2'; apply S|].
  split; [rewrite H3, H3'; apply S|].
  split; [rewrite H4, H4'; apply S|].
  rewrite H7, H7', Hpcr, (S peChange), (S ceChange). reflexivity.
Qed.

Lemma analysis_order_independent_scenario :
  calculateMaxPain scenarioChain
  = calculateMaxPain [twoLegged 18000 500 1500; twoLegged 17900 1000 500].
Proof.
  refine (proj1 (analysis_order_independent scenarioChain _ 17980 _)).
  apply perm_swap.
Defined.

Lemma firstGreatest_strike (oi : StrikeRecord -> Z) (v : list StrikeRecord) (s : Z) :
  firstGreatest oi v s -> s = 0 \/ In s (map strikePrice v).
Proof.
  intros [[_ ->]|(l1 & x & l2 & -> & -> & _)]; [left; reflexivity|right].
  apply in_map, in_or_app. right. left. reflexivity.
Qed.

(** X6. The strikes an analysis reports are strikes of the chain: when a
    record has both legs, the Max Pain and the ATM strike are strikes of
    two-legged records; support and resistance are each 0 or the strike of a
    two-legged record. *)
Theorem analysis_reports_strikes (data : list StrikeRecord) (underlyingValue : Z) :
  let strikes := map strikePrice (filter bothLegs data) in
  let r := analyzeOptionChain data underlyingValue in
  (strikes <> [] -> In (maxPain r) strikes /\ In (atmStrike r) strikes) /\
  (support r = 0 \/ In (support r) strikes) /\
  (resistance r = 0 \/ In (resistance r) strikes).
Proof.
  intros strikes r. set (both := filter bothLegs data).
  destruct (fold_accumulate_max both totals0) as [Hc Hp]. cbv zeta in Hc, Hp.
  split; [|split].
  - intros Hne.
    assert (Hboth : both <> []) by (intros H; apply Hne; unfold strikes; fold both; rewrite H; reflexivity).
    split.
    + apply (calculateMaxPain_isMaxPain both Hboth).
    + apply (firstLeast_In _ _ _ (getATMStrike_firstLeast underlyingValue strikes Hne)).
  - apply (firstGreatest_strike peOI both).
    change (support r) with (snd (maxPutOI (fold_left accumulate both totals0),
                                  t_support (fold_left accumulate both totals0))).
    rewrite Hp. apply firstAbove_firstGreatest, maxLoop.
  - apply (firstGreatest_strike ceOI both).
    change (resistance r) with (snd (maxCallOI (fold_left accumulate both totals0),
                                     t_resistance (fold_left accumulate both totals0))).
    rewrite Hc. apply firstAbove_firstGreatest, maxLoop.
Qed.

Lemma analysis_reports_strikes_scenario :
  In (maxPain (analyzeOptionChain scenarioChain 17980)) [17900; 18000] /\
  In (atmStrike (analyzeOptionChain scenarioChain 17980)) [17900; 18000].
Proof.
  refine (proj1 (analysis_reports_strikes scenarioChain 17980) _). discriminate.
Defined.

(** X7. A chain in which no record has both legs is analysed as the empty
    chain: every number is 0 and the trend is Bearish, whatever open interest
    the one-legged records carry. *)
Theorem analysis_without_two_legged (data : list StrikeRecord) (underlyingValue : Z) :
  (forall r, In r data -> bothLegs r = false) ->
  analyzeOptionChain data underlyingValue = emptyResult.
Proof.
  intros Hnone.
  assert (Hf : filter bothLegs data = []).
  { induction data as [|x data IH]; [reflexivity|]. simpl.
    rewrite (Hnone x (or_introl eq_refl)). apply IH.
    intros r Hr. apply Hnone. right. exact Hr. }
  unfold analyzeOptionChain. rewrite Hf. reflexivity.
Qed.

Lemma analysis_without_two_legged_scenario :
  analyzeOptionChain [putOnly 17900 5000; putOnly 18000 700] 17950 = emptyResult.
Proof.
  apply analysis_without_two_legged.
  intros r [<-|[<-|[]]]; reflexivity.
Defined.
End AnalysisFields.

(** ** The trend of a snapshot *)

Section TrendOfSnapshot.
Import Analysis.

(** C6. The trend of an analysis is decided from the PCR(OI) of the snapshot
    and its total changes of open interest.  The PCR(OI) is the [pcr] of the
    result: 0 when the Call open interest of the two-legged records sums to
    0, otherwise the count of hundredths that [toFixed] prints for their Put
    sum over their Call sum, which is nearest to it; the total changes are
    the sums of the changes of Put and of Call open interest over the same
    records.  Five branches are tried in
    order, the first that applies giving the result: PCR(OI) above 1.2,
    Bullish; else PCR(OI) below 0.6, Bearish; else the total change of Put OI
    above that of Call OI, Bullish; else the total change of Call OI above
    that of Put OI, Bearish; else Neutral.  The five conditions exclude one
    another and cover every case. *)
Theorem trend_cascade (data : list StrikeRecord) (underlyingValue : Z) :
  let both := filter bothLegs data in
  let sumPut := sumZ (map peOI both) in
  let sumCall := sumZ (map ceOI both) in
  let deltaPut := sumZ (map peChange both) in
  let deltaCall := sumZ (map ceChange both) in
  let r := analyzeOptionChain data underlyingValue in
  pcr r = ratio2 sumPut sumCall /\
  (sumCall = 0 -> pcr r = 0%Q) /\
  (sumCall <> 0 ->
   (exists n : Z, pcr r = n # 100) /\
   (Qabs (pcr r - inject_Z sumPut / inject_Z sumCall) <= 1 # 200)%Q) /\
  putChangeOI r = deltaPut /\
  callChangeOI r = deltaCall /\
  ((1.2 < pcr r)%Q -> trend r = Bullish) /\
  (~ (1.2 < pcr r)%Q -> (pcr r < 0.6)%Q -> trend r = Bearish) /\
  (~ (1.2 < pcr r)%Q -> ~ (pcr r < 0.6)%Q -> deltaPut > deltaCall ->
   trend r = Bullish) /\
  (~ (1.2 < pcr r)%Q -> ~ (pcr r < 0.6)%Q -> ~ deltaPut > deltaCall ->
   deltaCall > deltaPut -> trend r = Bearish) /\
  (~ (1.2 < pcr r)%Q -> ~ (pcr r < 0.6)%Q -> ~ deltaPut > deltaCall ->
   ~ deltaCall > deltaPut -> trend r = Neutral).
Proof.
  intros both sumPut sumCall deltaPut deltaCall r.
  destruct (analysis_by_sums data underlyingValue)
    as (_ & _ & Hdc & Hdp & Hpcr & _ & Htrend & _).
  fold both in Hdc, Hdp, Hpcr, Htrend. fold r in Hdc, Hdp, Hpcr, Htrend.
  fold sumPut sumCall in Hpcr. fold deltaPut deltaCall in Htrend.
  fold deltaCall in Hdc. fold deltaPut in Hdp.
  split; [exact Hpcr|].
  split; [|split; [|split; [exact Hdp|split; [exact Hdc|]]]].
  - intros Hzero. rewrite Hpcr, Hzero. reflexivity.
  - intros Hne. rewrite Hpcr. unfold ratio2.
    destruct (Z.eqb_spec sumCall 0) as [|_]; [contradiction|].
    split; [eexists; reflexivity|apply toFixed2_near].
  - rewrite Htrend. apply classify_cascade.
Qed.

(** The chain of the scenario: PCR(OI) 2000 / 1500, above 1.2. *)
Lemma trend_scenario : trend (analyzeOptionChain scenarioChain 17980) = Bullish.
Proof.
  refine (proj1 (proj2 (proj2 (proj2 (proj2 (proj2
            (trend_cascade scenarioChain 17980)))))) _).
  reflexivity.
Defined.

(** Put open interest 119 against Call open interest 200, with no change of
    either: the PCR(OI) is printed 0.59, and the second branch applies. *)
Lemma trend_below_threshold :
  pcr (analyzeOptionChain [twoLegged 100 200 119] 100) = 59 # 100 /\
  trend (analyzeOptionChain [twoLegged 100 200 119] 100) = Bearish.
Proof. vm_compute. split; reflexivity. Qed.
End TrendOfSnapshot.

(** * Further properties of the snapshot store *)

Section StoreMore.
Import DataService.
Variable getTime : string -> Z.

Lemma saveSnapshot_eq (clock : Clock) (response : NSEResponse) (store : Storage) :
  getSnapshots (saveSnapshot getTime clock response store)
  = firstn 100 (JsArray.sort (byTimeDesc getTime)
                             (summaryOf clock response :: getSnapshots store)).
Proof. reflexivity. Qed.

Lemma In_firstn {A : Type} (n : nat) (l : list A) (x : A) :
  In x (firstn n l) -> In x l.
Proof.
  intros H. rewrite <- (firstn_skipn n l). apply in_or_app. left. exact H.
Qed.

Lemma step_storeOk (op : Op) (store : Storage) :
  storeOk getTime (getSnapshots store) ->
  storeOk getTime (getSnapshots (step getTime store op)).
Proof.
  intros [Hs Hl]. destruct op as [clock response|snapshots|]; simpl step.
  - split; [apply saveSnapshot_sorted|].
    rewrite saveSnapshot_length. lia.
  - split; [apply saveBackfilledSnapshots_sorted|].
    rewrite saveBackfilledSnapshots_eq. apply firstn_le_length.
  - split; [constructor|simpl; lia].
Qed.

(** X8. The store keeps its list ordered most recent first and at most 200
    entries long: if the storage holds such a list, it still does after any
    sequence of single saves, batches and clears; the empty storage does. *)
Theorem run_storeOk (ops : list Op) (store : Storage) :
  storeOk getTime (getSnapshots store) ->
  storeOk getTime (getSnapshots (run getTime ops store)).
Proof.
  revert store. induction ops as [|op ops IH]; intros store Hok; [exact Hok|].
  simpl. apply IH, step_storeOk, Hok.
Qed.

(** X9. After any sequence of operations that ends with a batch, no two
    entries of the store carry the same timestamp, whatever was stored
    before, duplicates left by single saves included. *)
Theorem run_batch_unique (ops : list Op) (snapshots : list Snapshot) (store : Storage) :
  NoDup (map timestamp
             (getSnapshots (run getTime (ops ++ [OpBackfill snapshots]) store))).
Proof.
  unfold run. rewrite fold_left_app. simpl.
  apply saveBackfilledSnapshots_unique.
Qed.


Lemma sort_sorted_id {A : Type} (cmp : A -> A -> Z) (key : A -> Z) (l : list A) :
  (forall a b, cmp a b = key a - key b) ->
  StronglySorted (orderedBy key) l -> JsArray.sort cmp l = l.
Proof.
  intros Hcmp. induction 1 as [|x l Hs IH Hx]; simpl; [reflexivity|].
  rewrite IH. destruct l as [|y l]; [reflexivity|]. simpl.
  inversion Hx as [|? ? Hxy _]; subst. unfold orderedBy in Hxy.
  rewrite Hcmp. destruct (Z.leb_spec (key x - key y) 0); [reflexivity|lia].
Qed.

(** X11. On a storage ordered most recent first, saving a response whose
    summary is at least as recent as every stored entry puts the summary at
    the head of the list, followed by the first 99 stored entries in their
    order. *)
Theorem saveSnapshot_most_recent (clock : Clock) (response : NSEResponse)
  (store : Storage) :
  StronglySorted (mostRecentFirst getTime) (getSnapshots store) ->
  (forall y, In y (getSnapshots store) ->
             getTime (timestamp y) <= getTime (timestamp (summaryOf clock response))) ->
  getSnapshots (saveSnapshot getTime clock response store)
  = summaryOf clock response :: firstn 99 (getSnapshots store).
Proof.
  intros Hs Hrecent. rewrite saveSnapshot_eq.
  rewrite (sort_sorted_id (byTimeDesc getTime) (fun a => - getTime (timestamp a))).
  - reflexivity.
  - intros a b. unfold byTimeDesc. lia.
  - constructor.
    + apply StronglySorted_weaken with (R := mostRecentFirst getTime); [|exact Hs].
      unfold mostRecentFirst, orderedBy. intros a b H. lia.
    + apply Forall_forall. intros y Hy. specialize (Hrecent y Hy).
      unfold orderedBy. lia.
Qed.
End StoreMore.

Section StoreMoreWitnesses.
Import DataService.

Lemma run_storeOk_from_empty :
  storeOk sampleTime (getSnapshots (run sampleTime (saves sampleCalls) None)).
Proof.
  apply run_storeOk. split; [constructor|simpl; lia].
Defined.


Lemma saveSnapshot_most_recent_scenario :
  getSnapshots
    (saveSnapshot sampleTime (mkClock "1" "now") (responseAt "Taa")
       (saveSnapshot sampleTime (mkClock "0" "now") (responseAt "T") None))
  = [summaryOf (mkClock "1" "now") (responseAt "Taa");
     summaryOf (mkClock "0" "now") (responseAt "T")].
Proof.
  apply (saveSnapshot_most_recent sampleTime (mkClock "1" "now") (responseAt "Taa")).
  - repeat constructor.
  - intros y [<-|[]]. vm_compute. discriminate.
Defined.
End StoreMoreWitnesses.

Section BatchPrecedence.
Import DataService.
Variable getTime : string -> Z.

(** The sort is stable: it keeps the order of the elements of a class [p]
    whose members compare equal. *)
Lemma insert_stable {A : Type} (cmp : A -> A -> Z) (p : A -> bool) (x : A) (l : list A) :
  (forall a b, p a = true -> p b = true -> cmp a b = 0) ->
  filter p (JsArray.insert cmp x l) = filter p (x :: l).
Proof.
  intros Heq. induction l as [|y l IH]; [reflexivity|].
  simpl JsArray.insert. destruct (Z.leb_spec (cmp x y) 0) as [Hle|Hgt]; [reflexivity|].
  simpl filter in *. destruct (p y) eqn:Hy.
  - destruct (p x) eqn:Hx.
    + rewrite (Heq x y Hx Hy) in Hgt. lia.
    + rewrite IH. reflexivity.
  - exact IH.
Qed.

Lemma sort_stable {A : Type} (cmp : A -> A -> Z) (p : A -> bool) (l : list A) :
  (forall a b, p a = true -> p b = true -> cmp a b = 0) ->
  filter p (JsArray.sort cmp l) = filter p l.
Proof.
  intros Heq. induction l as [|x l IH]; [reflexivity|].
  simpl JsArray.sort. rewrite (insert_stable cmp p x _ Heq).
  simpl. rewrite IH. reflexivity.
Qed.

(** An entry kept by [keepFirst] is the first of its timestamp. *)
Lemma keepFirst_head (seen : list string) (l : list Snapshot) (x : Snapshot) :
  In x (keepFirst seen l) ->
  exists rest, filter (carries (timestamp x)) l = x :: rest.
Proof.
  revert seen. induction l as [|v l IH]; intros seen; simpl; [intros []|].
  assert (Hrest : In x (keepFirst (seen ++ [timestamp v]) l) ->
                  exists rest,
                    (if carries (timestamp x) v
                     then v :: filter (carries (timestamp x)) l
                     else filter (carries (timestamp x)) l) = x :: rest).
  { intros H. destruct (carries (timestamp x) v) eqn:Hc.
    - apply keepFirst_In in H. destruct H as [_ H]. exfalso. apply H.
      apply in_or_app. right. left. apply String.eqb_eq in Hc. exact Hc.
    - apply (IH _ H). }
  destruct (existsb _ seen); [exact Hrest|].
  intros [<-|H]; [|exact (Hrest H)].
  unfold carries at 1. rewrite String.eqb_refl. eexists. reflexivity.
Qed.

(** X12. A batch takes precedence over the storage: an entry kept by
    [saveBackfilledSnapshots] whose timestamp is carried by a snapshot of the
    batch is a snapshot of the batch (the first one with that timestamp), not
    the stored one. *)
Theorem saveBackfilledSnapshots_batch_first
  (snapshots : list Snapshot) (store : Storage) (x : Snapshot) :
  In x (getSnapshots (saveBackfilledSnapshots getTime snapshots store)) ->
  (exists b, In b snapshots /\ timestamp b = timestamp x) ->
  exists rest, filter (carries (timestamp x)) snapshots = x :: rest.
Proof.
  rewrite saveBackfilledSnapshots_eq. intros Hx (b & Hb & Hts).
  apply In_firstn, keepFirst_head in Hx. destruct Hx as (rest & Hrest).
  rewrite sort_stable, filter_app in Hrest.
  - assert (Hb' : In b (filter (carries (timestamp x)) snapshots)).
    { apply filter_In. split; [exact Hb|]. unfold carries. apply String.eqb_eq, Hts. }
    destruct (filter (carries (timestamp x)) snapshots) as [|y ys]; [destruct Hb'|].
    simpl in Hrest. injection Hrest as -> _. eexists. reflexivity.
  - intros a c Ha Hc. unfold carries in Ha, Hc.
    apply String.eqb_eq in Ha, Hc. unfold byTimeDesc. rewrite Ha, Hc. lia.
Qed.

Lemma keepFirst_distinct (seen : list string) (l : list Snapshot) :
  NoDup (map timestamp l) ->
  (forall x, In x l -> ~ In (timestamp x) seen) ->
  keepFirst seen l = l.
Proof.
  revert seen. induction l as [|v l IH]; intros seen Hnd Hseen; simpl; [reflexivity|].
  inversion Hnd as [|? ? Hv Hnd']; subst.
  destruct (existsb _ seen) eqn:Hex.
  - apply existsb_seen in Hex. exfalso. apply (Hseen v); [left; reflexivity|exact Hex].
  - f_equal. apply IH; [exact Hnd'|].
    intros x Hx Hin. apply in_app_or in Hin. destruct Hin as [Hin|[Hin|[]]].
    + apply (Hseen x); [right; exact Hx|exact Hin].
    + apply Hv. rewrite Hin. apply in_map, Hx.
Qed.

(** X13. A batch whose timestamps differ from one another and from the
    stored ones, and which with the stored list makes at most 200 entries, is
    kept whole: the store then holds exactly the snapshots of the batch and
    the ones stored before. *)
Theorem saveBackfilledSnapshots_keeps_all (snapshots : list Snapshot) (store : Storage) :
  NoDup (map timestamp (snapshots ++ getSnapshots store)) ->
  (List.length (snapshots ++ getSnapshots store) <= 200)%nat ->
  Permutation (getSnapshots (saveBackfilledSnapshots getTime snapshots store))
              (snapshots ++ getSnapshots store).
Proof.
  intros Hnd Hlen. rewrite saveBackfilledSnapshots_eq.
  set (combined := snapshots ++ getSnapshots store) in *.
  pose proof (sort_perm (byTimeDesc getTime) combined) as Hp.
  rewrite keepFirst_distinct.
  - rewrite firstn_all2; [exact Hp|].
    rewrite (Permutation_length Hp). exact Hlen.
  - apply (Permutation_NoDup (Permutation_map timestamp (Permutation_sym Hp))), Hnd.
  - intros x _ [].
Qed.
End BatchPrecedence.

Section BatchWitnesses.
Import DataService.

Lemma saveBackfilledSnapshots_batch_first_scenario :
  exists rest,
    filter (carries "T") [stamped "new" "T"] = stamped "new" "T" :: rest.
Proof.
  apply (saveBackfilledSnapshots_batch_first sampleTime
           [stamped "new" "T"] (Some [stamped "old" "T"]) (stamped "new" "T")).
  - left. reflexivity.
  - exists (stamped "new" "T"). split; [left|]; reflexivity.
Defined.

Lemma saveBackfilledSnapshots_keeps_all_scenario :
  Permutation
    (getSnapshots (saveBackfilledSnapshots sampleTime
                     [stamped "a" "T"; stamped "b" "Ta"] (Some [stamped "c" "Taa"])))
    [stamped "a" "T"; stamped "b" "Ta"; stamped "c" "Taa"].
Proof.
  apply (saveBackfilledSnapshots_keeps_all sampleTime
           [stamped "a" "T"; stamped "b" "Ta"] (Some [stamped "c" "Taa"])).
  - simpl. repeat constructor; simpl; intuition discriminate.
  - simpl. lia.
Defined.
End BatchWitnesses.

(** * Further properties of the parser *)

Section ParserMore.
Import Trendlyne.
Variable parseInt : string -> Z.
Variable parseFloat : string -> Z.
Variable today : string.

Lemma parseStrike_bothLegs (expiryDate symbol : string) (underlyingValue : Z)
  (o : list (string * SData)) :
  filter Analysis.bothLegs
         (map (parseStrike parseInt parseFloat expiryDate symbol underlyingValue) o)
  = map (parseStrike parseInt parseFloat expiryDate symbol underlyingValue) o.
Proof. induction o as [|e o IH]; simpl; [reflexivity|]. rewrite IH. reflexivity. Qed.

Lemma filter_all {A : Type} (f : A -> bool) (l : list A) :
  (forall x, In x l -> f x = true) -> filter f l = l.
Proof.
  induction l as [|x l IH]; simpl; intros H; [reflexivity|].
  rewrite (H x (or_introl eq_refl)). f_equal. apply IH.
  intros y Hy. apply H. right. exact Hy.
Qed.

(** X15. A snapshot the parser returns has one record for each key of the
    strike mapping (none of which holds null), in ascending order of strike,
    each with both legs (the analysis leaves none out); its list of strike
    prices and its filtered data are those of the records; and it carries
    the parsed price and the one expiry asked for. *)
Theorem fetchTrendlyneSnapshot_shape
  (stockId expiryDate timestamp symbol : string) (json : Json) (b : Body)
  (r : NSEResponse) :
  body json = Some b ->
  fetchTrendlyneSnapshot parseInt parseFloat today
                         stockId expiryDate timestamp symbol (Ok json) = Some r ->
  (exists entries,
      oiDataOf b = present entries /\
      Permutation (data (records r))
                  (map (parseStrike parseInt parseFloat expiryDate symbol
                                    (parseUnderlying parseFloat b)) entries)) /\
  ascending (data (records r)) /\
  filter Analysis.bothLegs (data (records r)) = data (records r) /\
  strikePrices (records r) = map strikePrice (data (records r)) /\
  filtered_data r = data (records r) /\
  rec_underlyingValue (records r) = parseUnderlying parseFloat b /\
  expiryDates (records r) = [expiryDate].
Proof.
  intros Hbody. unfold fetchTrendlyneSnapshot. rewrite Hbody.
  destruct (headError json); [discriminate|].
  destruct (_ && _); [discriminate|].
  destruct (parseStrikes _ _ _ _ _ _) as [parsed|] eqn:Hparsed; [|discriminate].
  apply parseStrikes_present in Hparsed. destruct Hparsed as (entries & Hentries & ->).
  intros H. injection H as <-. simpl.
  set (parsed := map _ entries).
  set (cmp := fun a c : StrikeRecord => strikePrice a - strikePrice c).
  pose proof (sort_perm cmp parsed) as Hp.
  split; [exists entries; split; [exact Hentries|exact Hp]|]. split.
  - apply (sort_sorted cmp strikePrice). reflexivity.
  - split; [|repeat split; reflexivity].
    apply filter_all. intros x Hx. apply (Permutation_in _ Hp) in Hx.
    unfold parsed in Hx. apply in_map_iff in Hx. destruct Hx as (e & <- & _).
    reflexivity.
Qed.


End ParserMore.

Section ParserMoreWitnesses.
Import Trendlyne.

Lemma fetchTrendlyneSnapshot_shape_scenario :
  exists r,
    fetchTrendlyneSnapshot readDigits readDigits "2024-03-28"
                           "1887" "28-Mar-2024" "09:15" "NIFTY"
                           (Ok (mkJson None (Some twoStrikes))) = Some r /\
    strikePrices (records r) = [22000; 22100] /\
    ascending (data (records r)).
Proof.
  eexists. split; [reflexivity|]. split; [reflexivity|].
  refine (proj1 (proj2
    (fetchTrendlyneSnapshot_shape readDigits readDigits "2024-03-28"
       "1887" "28-Mar-2024" "09:15" "NIFTY"
       (mkJson None (Some twoStrikes)) twoStrikes _ eq_refl eq_refl))).
Defined.

End ParserMoreWitnesses.

(** * Further properties of the time intervals *)

Section IntervalsMore.
Import Trendlyne.

Lemma whileLoop_stuck (range : DateRange) (e : Z) (fuel : nat) (current : Z)
  (times : list string) :
  0 <= current <= 1439 -> current <= e ->
  whileLoop range fuel 0 current e times = None.
Proof.
  intros Hcurrent Hle. revert times.
  induction fuel as [|fuel IH]; intros times; cbn [whileLoop]; [reflexivity|].
  rewrite (validDate_day range current Hcurrent).
  destruct (Z.leb_spec current e); [|lia]. cbn [andb].
  destruct (Z.of_nat (List.length times) <? 4294967295); [|reflexivity].
  rewrite Z.add_0_r. apply IH.
Qed.

(** X17. Take a start time of the day not after the end time.  With a step
    of 0 [generateTimeIntervals] returns no list: no amount of fuel gives a
    result.  With a negative step that takes the date before the range of
    [Date], the date becomes invalid and the loop is left after one turn:
    the result is the label of the start time alone. *)
Theorem generateTimeIntervals_step_not_positive (range : DateRange) (s e step : Z)
  (fuel : nat) :
  0 <= s < 1440 -> 0 <= e < 1440 -> s <= e ->
  (step = 0 -> generateTimeIntervals range fuel (label s) (label e) step = None) /\
  (s + step < - Z.of_N (minutesBefore range) -> (1 < fuel)%nat ->
   generateTimeIntervals range fuel (label s) (label e) step = Some [label s]).
Proof.
  intros Hs He Hle. unfold generateTimeIntervals.
  rewrite (setHoursOf_label s Hs), (setHoursOf_label e He).
  rewrite (validDate_day range e) by lia. split.
  - intros ->. apply whileLoop_stuck; lia.
  - intros Hout Hfuel. destruct fuel as [|[|fuel]]; [lia|lia|].
    cbn [whileLoop]. rewrite (validDate_day range s) by lia.
    destruct (Z.leb_spec s e); [|lia]. cbn [andb List.length app].
    change (Z.of_nat 0 <? 4294967295) with true. cbv iota.
    unfold validDate. destruct (Z.leb_spec (- Z.of_N (minutesBefore range)) (s + step));
      [lia|reflexivity].
Qed.

Lemma generateTimeIntervals_step_not_positive_scenario :
  generateTimeIntervals sampleRange 1000 "09:15" "15:30" 0 = None /\
  generateTimeIntervals sampleRange 2 "09:15" "15:30" (-1000000000000)
  = Some ["09:15"%string].
Proof.
  split.
  - refine (proj1 (generateTimeIntervals_step_not_positive sampleRange 555 930 0 1000
                     _ _ _) eq_refl); lia.
  - refine (proj2 (generateTimeIntervals_step_not_positive
                     sampleRange 555 930 (-1000000000000) 2 _ _ _) _ _);
      try lia.
    vm_compute. reflexivity.
Defined.

Lemma label_injective (a b : Z) :
  0 <= a < 1440 -> 0 <= b < 1440 -> label a = label b -> a = b.
Proof.
  intros Ha Hb Heq.
  pose proof (setHoursOf_label a Ha) as H1.
  pose proof (setHoursOf_label b Hb) as H2.
  rewrite Heq in H1. congruence.
Qed.

Lemma arithSeq_In (s step : Z) (n : nat) (t : Z) :
  In t (arithSeq s step n) <-> exists k, (k < n)%nat /\ t = s + Z.of_nat k * step.
Proof.
  unfold arithSeq. rewrite in_map_iff. split.
  - intros (k & <- & Hk). apply in_seq in Hk. exists k. split; [lia|reflexivity].
  - intros (k & Hk & ->). exists k. split; [reflexivity|apply in_seq; lia].
Qed.

Lemma arithSeq_NoDup (s step : Z) (n : nat) : 0 < step -> NoDup (arithSeq s step n).
Proof.
  intros Hstep. revert s. induction n as [|n IH]; intros s; [constructor|].
  rewrite arithSeq_succ. constructor; [|apply IH].
  intros Hin. apply arithSeq_In in Hin. destruct Hin as (k & _ & Hk). nia.
Qed.

Lemma map_NoDup_on {A B : Type} (f : A -> B) (l : list A) :
  (forall a b, In a l -> In b l -> f a = f b -> a = b) ->
  NoDup l -> NoDup (map f l).
Proof.
  intros Hinj. induction 1 as [|x l Hx Hnd IH]; simpl; [constructor|].
  constructor.
  - intros Hin. apply in_map_iff in Hin. destruct Hin as (y & Hy & Hin).
    apply Hx. rewrite <- (Hinj y x); [exact Hin|right; exact Hin|left; reflexivity|exact Hy].
  - apply IH. intros a b Ha Hb. apply Hinj; right; assumption.
Qed.

(** X18. For a start and an end time of the day and a positive step, the
    labels [generateTimeIntervals] returns are all different, and there are
    as many as there are terms of the sequence up to the end time. *)
Theorem generateTimeIntervals_distinct (range : DateRange) (s e step : Z)
  (fuel : nat) :
  0 <= s < 1440 -> 0 <= e < 1440 -> 0 < step ->
  (termsUpTo s e step < fuel)%nat ->
  exists times,
    generateTimeIntervals range fuel (label s) (label e) step = Some times /\
    List.length times = termsUpTo s e step /\
    NoDup times.
Proof.
  intros Hs He Hstep Hfuel. eexists. split; [|split].
  - unfold generateTimeIntervals.
    rewrite (setHoursOf_label s Hs), (setHoursOf_label e He).
    rewrite (validDate_day range e) by lia.
    apply generateTimeIntervals_runs; [exact Hstep|lia|lia|exact Hfuel].
  - simpl. unfold arithSeq. rewrite !length_map, length_seq. reflexivity.
  - simpl. destruct (arithSeq_bounds s e step Hstep) as [Hin _].
    apply map_NoDup_on; [|apply arithSeq_NoDup, Hstep].
    intros a b Ha Hb. apply label_injective.
    + specialize (Hin a Ha). lia.
    + specialize (Hin b Hb). lia.
Qed.

Lemma generateTimeIntervals_distinct_scenario :
  exists times,
    generateTimeIntervals sampleRange 30 "09:15" "15:30" 15 = Some times /\
    List.length times = 26%nat /\ NoDup times.
Proof.
  apply (generateTimeIntervals_distinct sampleRange 555 930 15 30); try lia.
  vm_compute. repeat constructor.
Defined.

Lemma split_without_separator (sep : ascii) (s : string) :
  DataService.includes sep s = false -> split sep s = [s].
Proof.
  induction s as [|c s IH]; simpl; [reflexivity|].
  destruct (Ascii.eqb c sep); [discriminate|].
  intros H. rewrite (IH H). reflexivity.
Qed.

(** X19. A start time or an end time without a colon makes an invalid date:
    [generateTimeIntervals] returns the empty list, whatever the step. *)
Theorem generateTimeIntervals_without_colon
  (range : DateRange) (fuel : nat) (startTime endTime : string) (step : Z) :
  DataService.includes ":" startTime = false \/
  DataService.includes ":" endTime = false ->
  generateTimeIntervals range fuel startTime endTime step = Some [].
Proof.
  unfold generateTimeIntervals, setHoursOf.
  intros [H|H]; rewrite (split_without_separator _ _ H); simpl.
  - destruct (Number startTime); reflexivity.
  - destruct (Number endTime);
      destruct (map Number (split ":" startTime)) as [|[h|] [|[m|] rest]];
      reflexivity.
Qed.

Lemma generateTimeIntervals_without_colon_scenario :
  generateTimeIntervals sampleRange 0 "0915" "15:30" 15 = Some [].
Proof.
  apply generateTimeIntervals_without_colon. left. reflexivity.
Defined.
End IntervalsMore.

(** * Properties of the backfill and of the display *)

Section BackfillFacts.
Import Trendlyne App.

Lemma endReadsBack_day : forallb endReadsBack (map Z.of_nat (seq 0 1440)) = true.
Proof. vm_compute. reflexivity. Qed.

Lemma setHoursOf_backfillEndTime (hours minutes : Z) :
  0 <= hours < 24 -> 0 <= minutes < 60 ->
  setHoursOf (backfillEndTime hours minutes) = Some (backfillEnd hours minutes).
Proof.
  intros Hh Hm. pose proof endReadsBack_day as H.
  rewrite forallb_forall in H. specialize (H (60 * hours + minutes)).
  assert (Hin : In (60 * hours + minutes) (map Z.of_nat (seq 0 1440))).
  { apply in_map_iff. exists (Z.to_nat (60 * hours + minutes)). split; [lia|].
    apply in_seq. lia. }
  apply H in Hin. unfold endReadsBack in Hin.
  replace ((60 * hours + minutes) / 60) with hours in Hin
    by (apply (Z.div_unique _ 60 hours minutes); lia).
  replace ((60 * hours + minutes) mod 60) with minutes in Hin
    by (apply (Z.mod_unique _ 60 hours minutes); lia).
  destruct (setHoursOf (backfillEndTime hours minutes)) as [t|]; [|discriminate].
  apply Z.eqb_eq in Hin. congruence.
Qed.

Lemma termsUpTo_session (e : Z) : e <= 930 -> (termsUpTo 555 e 15 <= 26)%nat.
Proof.
  intros He. unfold termsUpTo. destruct (Z.leb_spec 555 e); [|lia].
  assert ((e - 555) / 15 <= 25) by (apply Z.div_le_upper_bound; lia).
  assert (0 <= (e - 555) / 15) by (apply Z.div_pos; lia). lia.
Qed.

Lemma backfill_intervals (range : DateRange) (hours minutes : Z) (fuel : nat) :
  0 <= hours < 24 -> 0 <= minutes < 60 -> (26 < fuel)%nat ->
  generateTimeIntervals range fuel "09:15" (backfillEndTime hours minutes) 15
  = Some (map label (arithSeq 555 15 (termsUpTo 555 (backfillEnd hours minutes) 15))).
Proof.
  intros Hh Hm Hfuel. unfold generateTimeIntervals.
  rewrite (setHoursOf_backfillEndTime hours minutes Hh Hm).
  change (setHoursOf "09:15") with (Some 555). cbv beta iota.
  pose proof (termsUpTo_session (backfillEnd hours minutes)) as Hterms.
  assert (Hend : 0 <= backfillEnd hours minutes <= 930) by (unfold backfillEnd; lia).
  rewrite (validDate_day range (backfillEnd hours minutes)) by lia.
  apply generateTimeIntervals_runs; lia.
Qed.

(** X20. For any time of the clock, the intervals of a backfill are the
    labels of 09:15, 09:30, ... up to the clock's time, and up to 15:30 once
    the clock is past it: none is in the future, there are at most 26, and
    none at all before 09:15.  27 units of fuel are enough. *)
Theorem backfill_intervals_by_clock (range : DateRange) (hours minutes : Z)
  (fuel : nat) :
  0 <= hours < 24 -> 0 <= minutes < 60 -> (26 < fuel)%nat ->
  let n := termsUpTo 555 (backfillEnd hours minutes) 15 in
  generateTimeIntervals range fuel "09:15" (backfillEndTime hours minutes) 15
  = Some (map label (arithSeq 555 15 n)) /\
  (n <= 26)%nat /\
  (forall t, In t (arithSeq 555 15 n) ->
             555 <= t /\ t <= 60 * hours + minutes /\ t <= 930) /\
  (60 * hours + minutes < 555 -> n = 0%nat).
Proof.
  intros Hh Hm Hfuel n. split; [apply backfill_intervals; assumption|].
  split; [apply termsUpTo_session; unfold backfillEnd; lia|]. split.
  - intros t Ht.
    destruct (arithSeq_bounds 555 (backfillEnd hours minutes) 15) as [Hin _]; [lia|].
    specialize (Hin t Ht). unfold backfillEnd in Hin. lia.
  - intros Hearly. unfold n, termsUpTo, backfillEnd.
    destruct (Z.leb_spec 555 (Z.min (60 * hours + minutes) 930)); [lia|reflexivity].
Qed.

Lemma backfill_intervals_by_clock_scenario :
  generateTimeIntervals sampleRange 27 "09:15" (backfillEndTime 9 50) 15
  = Some ["09:15"; "09:30"; "09:45"]%string.
Proof.
  refine (proj1 (backfill_intervals_by_clock sampleRange 9 50 27 _ _ _)); lia.
Defined.

Variable getTime : string -> Z.
Variable getStockId : string -> option string.
Variable getExpiryDates : string -> list string.
Variable fetchSnapshot : string -> string -> string -> string -> option NSEResponse.
Variable dateNowAt : string -> string.

Lemma visit_collects (stockId expiry selectedIndex : string) (intervals : list string)
  (acc : list Snapshot) (u : Snapshot) :
  In u (fold_left (visit fetchSnapshot dateNowAt stockId expiry selectedIndex)
                  intervals acc) ->
  In u acc \/
  exists time response,
    In time intervals /\
    fetchSnapshot stockId expiry time selectedIndex = Some response /\
    u = summarize dateNowAt time response.
Proof.
  revert acc. induction intervals as [|time intervals IH]; intros acc; simpl.
  - intros H. left. exact H.
  - intros H. apply IH in H. destruct H as [H|(t & r & Ht & Hf & Hu)].
    + unfold visit in H.
      destruct (fetchSnapshot stockId expiry time selectedIndex) as [response|] eqn:Hf;
        [|left; exact H].
      apply in_app_or in H. destruct H as [H|[<-|[]]]; [left; exact H|].
      right. exists time, response. split; [left; reflexivity|]. split; [exact Hf|reflexivity].
    + right. exists t, r. split; [right; exact Ht|]. split; assumption.
Qed.

(** X21. For any time of the clock [handleBackfill] completes (27 units of
    fuel are enough).  A failed lookup, of the stock id or of the expiry
    dates, leaves the storage as it was.  Every snapshot in the storage
    afterwards was stored before, or is the summary of a snapshot fetched for
    a label between 09:15 and the earlier of the clock's time and 15:30,
    filed under the timestamp of that snapshot. *)
Theorem handleBackfill_provenance (range : DateRange) (fuel : nat)
  (selectedIndex : string) (hours minutes : Z) (store : DataService.Storage) :
  0 <= hours < 24 -> 0 <= minutes < 60 -> (26 < fuel)%nat ->
  exists store',
    handleBackfill getTime getStockId getExpiryDates fetchSnapshot dateNowAt
                   range fuel selectedIndex hours minutes store = Some store' /\
    (truthy (getStockId selectedIndex) = None -> store' = store) /\
    (forall stockId, truthy (getStockId selectedIndex) = Some stockId ->
                     getExpiryDates stockId = [] -> store' = store) /\
    forall u, In u (DataService.getSnapshots store') ->
      In u (DataService.getSnapshots store) \/
      exists t stockId expiry response,
        555 <= t /\ t <= 60 * hours + minutes /\ t <= 930 /\
        fetchSnapshot stockId expiry (label t) selectedIndex = Some response /\
        u = summarize dateNowAt (label t) response /\
        timestamp u = rec_timestamp (records response).
Proof.
  intros Hh Hm Hfuel. unfold handleBackfill.
  destruct (truthy (getStockId selectedIndex)) as [stockId|].
  2:{ exists store. split; [reflexivity|]. split; [reflexivity|].
      split; [discriminate|]. intros u Hu. left. exact Hu. }
  destruct (getExpiryDates stockId) as [|expiry rest] eqn:Hexpiry.
  { exists store. split; [reflexivity|]. split; [reflexivity|].
    split; [reflexivity|]. intros u Hu. left. exact Hu. }
  rewrite (backfill_intervals range hours minutes fuel Hh Hm Hfuel).
  eexists. split; [reflexivity|]. split; [discriminate|].
  split; [intros stockId' Hid; injection Hid as <-; rewrite Hexpiry; discriminate|].
  intros u Hu.
  rewrite saveBackfilledSnapshots_eq in Hu.
  apply In_firstn, keepFirst_In in Hu. destruct Hu as [Hu _].
  apply sort_In, in_app_or in Hu. destruct Hu as [Hu|Hu]; [|left; exact Hu].
  apply visit_collects in Hu. destruct Hu as [[]|(time & response & Ht & Hf & Hu)].
  right. apply in_map_iff in Ht. destruct Ht as (t & <- & Ht).
  destruct (arithSeq_bounds 555 (backfillEnd hours minutes) 15) as [Hin _]; [lia|].
  specialize (Hin t Ht). unfold backfillEnd in Hin.
  exists t, stockId, expiry, response.
  repeat split; try lia; try assumption. rewrite Hu. reflexivity.
Qed.
End BackfillFacts.

Section BackfillWitness.
Import Trendlyne App.

Lemma handleBackfill_provenance_scenario :
  exists store',
    handleBackfill sampleTime (fun _ => Some "1887"%string) (fun _ => ["e"%string])
                   (fun _ _ _ _ => Some (responseAt "2024-03-28 09:15:00"))
                   (fun _ => "0"%string) sampleRange 27 "NIFTY" 9 20 None
    = Some store' /\
    (truthy (Some "1887"%string) = None -> store' = None) /\
    (forall stockId : string, truthy (Some "1887"%string) = Some stockId ->
                              ["e"%string] = [] -> store' = None) /\
    forall u, In u (DataService.getSnapshots store') ->
      In u [] \/
      exists (t : Z) (stockId expiry : string) (response : NSEResponse),
        555 <= t /\ t <= 60 * 9 + 20 /\ t <= 930 /\
        Some (responseAt "2024-03-28 09:15:00") = Some response /\
        u = summarize (fun _ => "0"%string) (label t) response /\
        timestamp u = rec_timestamp (records response).
Proof.
  apply (handleBackfill_provenance sampleTime (fun _ => Some "1887"%string)
           (fun _ => ["e"%string])
           (fun _ _ _ _ => Some (responseAt "2024-03-28 09:15:00"))
           (fun _ => "0"%string) sampleRange 27 "NIFTY" 9 20 None); lia.
Defined.
End BackfillWitness.

Section DisplayFacts.
Import Analysis App.

(** X22. When the analysis shown is the analysis of the response shown and
    its ATM strike is not 0, the strikes displayed are the records of the
    response within 1000 of the ATM strike, and the record of the ATM strike
    is among them. *)
Theorem displayStrikes_around_atm (d : NSEResponse) :
  let a := analyzeOptionChain (data (records d)) (rec_underlyingValue (records d)) in
  atmStrike a <> 0 ->
  let shown := displayStrikes (Some d) (Some a) in
  (forall r, In r shown <->
             In r (data (records d)) /\ Z.abs (strikePrice r - atmStrike a) <= 1000) /\
  (exists r, In r shown /\ strikePrice r = atmStrike a).
Proof.
  intros a Hatm shown.
  assert (Hshown : forall r, In r shown <->
            In r (data (records d)) /\ Z.abs (strikePrice r - atmStrike a) <= 1000).
  { intros r. unfold shown, displayStrikes.
    destruct (Z.eqb_spec (atmStrike a) 0) as [|_]; [contradiction|].
    rewrite filter_In, andb_true_iff, Z.geb_le, Z.leb_le. split.
    - intros [Hin [H1 H2]]. split; [exact Hin|lia].
    - intros [Hin H]. split; [exact Hin|lia]. }
  split; [exact Hshown|].
  set (strikes := map strikePrice (filter bothLegs (data (records d)))).
  assert (Hne : strikes <> []).
  { intros Hnil. apply Hatm. unfold a, analyzeOptionChain. cbn [atmStrike].
    fold strikes. rewrite Hnil. reflexivity. }
  pose proof (getATMStrike_firstLeast (rec_underlyingValue (records d)) strikes Hne)
    as Hfirst.
  apply firstLeast_In in Hfirst. destruct Hfirst as [Hin _].
  change (getATMStrike (rec_underlyingValue (records d)) strikes)
    with (atmStrike a) in Hin.
  unfold strikes in Hin. apply in_map_iff in Hin. destruct Hin as (r & Hr & Hin).
  apply filter_In in Hin. destruct Hin as [Hin _].
  exists r. split; [|exact Hr]. apply Hshown. split; [exact Hin|]. lia.
Qed.

Lemma displayStrikes_around_atm_scenario :
  exists r,
    In r (displayStrikes
            (Some (mkNSEResponse
                     (mkNSERecords [] scenarioChain "t" 17980 []) []))
            (Some (analyzeOptionChain scenarioChain 17980))) /\
    strikePrice r = 18000.
Proof.
  refine (proj2 (displayStrikes_around_atm
                   (mkNSEResponse (mkNSERecords [] scenarioChain "t" 17980 []) []) _)).
  discriminate.
Defined.
End DisplayFacts.

(** * Properties of the live fetch, of the mock data and of the lookup *)

Section CutoffFacts.
Import Trendlyne.

Lemma timeStr_label (hours minutes : Z) :
  0 <= hours < 24 -> 0 <= minutes < 60 ->
  Fetch.timeStr (hours, minutes) = label (60 * hours + minutes).
Proof.
  intros Hh Hm. unfold Fetch.timeStr, label, getHours, getMinutes. simpl fst. simpl snd.
  replace ((60 * hours + minutes) / 60) with hours
    by (apply (Z.div_unique _ 60 hours minutes); lia).
  replace ((60 * hours + minutes) mod 60) with minutes
    by (apply (Z.mod_unique _ 60 hours minutes); lia).
  rewrite Z.mod_small by lia. reflexivity.
Qed.

Lemma cutoff_cases (hours minutes : Z) :
  0 <= minutes < 60 ->
  (555 <= 60 * hours + minutes < 930 -> Fetch.cutoff hours minutes = (hours, minutes)) /\
  (60 * hours + minutes < 555 \/ 930 <= 60 * hours + minutes ->
   Fetch.cutoff hours minutes = (15, 30)) /\
  Service.cutoff hours minutes = Fetch.cutoff hours minutes.
Proof.
  intros Hm. unfold Fetch.cutoff, Service.cutoff.
  destruct (Z.gtb_spec hours 15); destruct (Z.eqb_spec hours 15);
    destruct (Z.geb_spec minutes 30);
    cbn [orb andb]; cbv zeta iota; cbn [fst snd];
    destruct (Z.ltb_spec hours 9); destruct (Z.eqb_spec hours 9);
    destruct (Z.ltb_spec minutes 15);
    cbn [orb andb]; cbv iota;
    try (exfalso; lia);
    (split; [intros; first [reflexivity|exfalso; lia]
            |split; [intros; first [reflexivity|exfalso; lia]|reflexivity]]).
Qed.

(** X23. Whatever the hour of the clock, with minutes between 0 and 59, the
    time the live fetch asks a snapshot for is the label of a time between
    09:15 and 15:30: the clock's own time when it is inside the session
    (from 09:15, before 15:30), and 15:30 otherwise.  The proxy service
    computes the same time. *)
Theorem cutoff_in_session (hours minutes : Z) :
  0 <= minutes < 60 ->
  let hm := Fetch.cutoff hours minutes in
  let t := 60 * fst hm + snd hm in
  555 <= t <= 930 /\
  Fetch.timeStr hm = label t /\
  (555 <= 60 * hours + minutes < 930 ->
   hm = (hours, minutes) /\ t = 60 * hours + minutes) /\
  (60 * hours + minutes < 555 \/ 930 <= 60 * hours + minutes ->
   hm = (15, 30) /\ Fetch.timeStr hm = "15:30"%string) /\
  Service.cutoff hours minutes = hm.
Proof.
  intros Hm hm t.
  destruct (cutoff_cases hours minutes Hm) as (Hin & Hout & Hsame).
  assert (Hcase : 555 <= 60 * hours + minutes < 930 \/
                  (60 * hours + minutes < 555 \/ 930 <= 60 * hours + minutes)) by lia.
  split; [|split; [|split; [|split; [|exact Hsame]]]].
  - unfold t, hm. destruct Hcase as [H|H].
    + rewrite (Hin H). cbn [fst snd]. lia.
    + rewrite (Hout H). cbn [fst snd]. lia.
  - unfold t, hm. destruct Hcase as [H|H].
    + rewrite (Hin H). simpl fst. simpl snd. apply timeStr_label; lia.
    + rewrite (Hout H). reflexivity.
  - intros H. unfold t, hm. rewrite (Hin H). split; reflexivity.
  - intros H. unfold hm. rewrite (Hout H). split; reflexivity.
Qed.

Lemma cutoff_in_session_scenario :
  Fetch.cutoff 8 5 = (15, 30) /\ Fetch.timeStr (Fetch.cutoff 8 5) = "15:30"%string.
Proof.
  refine (proj1 (proj2 (proj2 (proj2 (cutoff_in_session 8 5 _)))) _); lia.
Defined.
End CutoffFacts.

Section MockFacts.
Import Analysis.
Variable random : nat -> Z -> Z.

Lemma fold_push {A B : Type} (f : A -> B) (l : list A) (acc : list B) :
  fold_left (fun strikes i => strikes ++ [f i]) l acc = acc ++ map f l.
Proof.
  revert acc. induction l as [|x l IH]; intros acc; simpl.
  - rewrite app_nil_r. reflexivity.
  - rewrite IH, <- app_assoc. reflexivity.
Qed.

Lemma generateMockData_eq (k0 : nat) (basePrice : Z) :
  generateMockData random k0 basePrice
  = map (mockStrike random k0 basePrice (basePrice / 50 * 50 - 1000)) (seq 0 40).
Proof. unfold generateMockData. rewrite fold_push. reflexivity. Qed.

Lemma generateMockData_strikes (k0 : nat) (basePrice : Z) :
  map strikePrice (generateMockData random k0 basePrice)
  = arithSeq (basePrice / 50 * 50 - 1000) 50 40.
Proof.
  rewrite generateMockData_eq, map_map. unfold arithSeq.
  apply map_ext. intros i. reflexivity.
Qed.

Lemma generateMockData_bothLegs (k0 : nat) (basePrice : Z) :
  filter bothLegs (generateMockData random k0 basePrice)
  = generateMockData random k0 basePrice.
Proof.
  apply filter_all. intros x Hx. rewrite generateMockData_eq in Hx.
  apply in_map_iff in Hx. destruct Hx as (i & <- & _). reflexivity.
Qed.

(** X24. The mock chain has 40 records with both legs, at the strikes
    [start], [start + 50], ... in this order, where [start] is the base price
    rounded down to a multiple of 50, less 1000: the base price lies between
    the 21st strike and the 22nd. *)
Theorem generateMockData_shape (k0 : nat) (basePrice : Z) :
  let start := basePrice / 50 * 50 - 1000 in
  let chain := generateMockData random k0 basePrice in
  map strikePrice chain = arithSeq start 50 40 /\
  List.length chain = 40%nat /\
  filter bothLegs chain = chain /\
  start + 1000 <= basePrice < start + 1050.
Proof.
  intros start chain. split; [apply generateMockData_strikes|].
  split; [unfold chain; rewrite generateMockData_eq, length_map; reflexivity|].
  split; [apply generateMockData_bothLegs|].
  unfold start. pose proof (Z.mul_div_le basePrice 50).
  pose proof (Z.mul_succ_div_gt basePrice 50). lia.
Qed.

(** X25. The analysis of the mock chain at its base price reports an ATM
    strike that is one of the 40 strikes and at most 25 away from the base
    price. *)
Theorem generateMockData_atm (k0 : nat) (basePrice : Z) :
  let r := analyzeOptionChain (generateMockData random k0 basePrice) basePrice in
  Z.abs (atmStrike r - basePrice) <= 25 /\
  In (atmStrike r) (arithSeq (basePrice / 50 * 50 - 1000) 50 40).
Proof.
  intros r. set (start := basePrice / 50 * 50 - 1000).
  assert (Hatm : atmStrike r = getATMStrike basePrice (arithSeq start 50 40)).
  { unfold r, analyzeOptionChain. cbn [atmStrike].
    rewrite generateMockData_bothLegs, generateMockData_strikes. reflexivity. }
  assert (Hne : arithSeq start 50 40 <> []) by discriminate.
  pose proof (getATMStrike_firstLeast basePrice _ Hne) as Hfirst.
  apply firstLeast_In in Hfirst. rewrite <- Hatm in Hfirst.
  destruct Hfirst as [Hin Hmin]. split; [|exact Hin].
  assert (H20 : In (start + 1000) (arithSeq start 50 40))
    by (apply arithSeq_In; exists 20%nat; split; lia).
  assert (H21 : In (start + 1050) (arithSeq start 50 40))
    by (apply arithSeq_In; exists 21%nat; split; lia).
  apply Hmin in H20. apply Hmin in H21. cbv beta in H20, H21.
  assert (start + 1000 <= basePrice < start + 1050).
  { unfold start. pose proof (Z.mul_div_le basePrice 50).
    pose proof (Z.mul_succ_div_gt basePrice 50). lia. }
  lia.
Qed.
End MockFacts.

Section FetchFacts.
Import Trendlyne.
Variable getStockId : string -> option string.
Variable getExpiryDates : string -> list string.
Variable fetchSnapshot : string -> string -> string -> string -> option NSEResponse.
Variable random : nat -> Z -> Z.
Variable nowISOString : string.

(** X26. [fetchOptionChainData] always has a response, and which one is
    settled by the three requests.  When the identifier of the symbol is
    found, an expiry is listed and the snapshot asked for that identifier,
    the first expiry and the session time of the clock is fetched, the
    response is that snapshot.  When the identifier is missing, when no
    expiry is listed, and when the fetch fails, it is the mock response: 40
    strikes stamped with the ISO time of the clock, at a price within 50 of
    the base price of the symbol (the draw that moves it being between 0 and
    99). *)
Theorem fetchOptionChainData_cases (symbol : string) (hours minutes : Z) :
  0 <= random 0%nat 100 < 100 ->
  let r := Fetch.fetchOptionChainData getStockId getExpiryDates fetchSnapshot
                                      random nowISOString symbol hours minutes in
  let mock := Fetch.fallback random nowISOString symbol in
  (truthy (getStockId symbol) = None -> r = mock) /\
  (forall stockId,
      truthy (getStockId symbol) = Some stockId ->
      (getExpiryDates stockId = [] -> r = mock) /\
      (forall expiry rest,
          getExpiryDates stockId = expiry :: rest ->
          (forall d, fetchSnapshot stockId expiry
                                   (Fetch.timeStr (Fetch.cutoff hours minutes)) symbol
                     = Some d -> r = d) /\
          (fetchSnapshot stockId expiry
                         (Fetch.timeStr (Fetch.cutoff hours minutes)) symbol
           = None -> r = mock))) /\
  List.length (data (records mock)) = 40%nat /\
  rec_timestamp (records mock) = nowISOString /\
  Z.abs (rec_underlyingValue (records mock) - Fetch.basePriceOf symbol) <= 50.
Proof.
  intros Hdraw r mock. split; [|split].
  - intros Hid. unfold r, Fetch.fetchOptionChainData. rewrite Hid. reflexivity.
  - intros stockId Hid. unfold r, Fetch.fetchOptionChainData. rewrite Hid.
    split; [intros ->; reflexivity|]. intros expiry rest ->.
    split; [intros d ->; reflexivity|intros ->; reflexivity].
  - unfold mock, Fetch.fallback. cbn [records data rec_timestamp rec_underlyingValue].
    rewrite generateMockData_eq, length_map. split; [reflexivity|].
    split; [reflexivity|]. lia.
Qed.
End FetchFacts.

Section FetchWitness.
Import Trendlyne.

Lemma fetchOptionChainData_cases_scenario :
  Fetch.fetchOptionChainData
    (fun _ => Some "1887"%string) (fun _ => ["28-Mar-2024"%string])
    (fun _ _ time _ => Some (responseAt time))
    (fun _ _ => 7) "now" "NIFTY" 10 0
  = responseAt "10:00" /\
  Fetch.fetchOptionChainData
    (fun _ => None) (fun _ => []) (fun _ _ _ _ => None)
    (fun _ _ => 7) "now" "NIFTY" 10 0
  = Fetch.fallback (fun _ _ => 7) "now" "NIFTY".
Proof.
  split.
  - refine (proj1 (proj2 (proj1 (proj2
              (fetchOptionChainData_cases
                 (fun _ => Some "1887"%string) (fun _ => ["28-Mar-2024"%string])
                 (fun _ _ time _ => Some (responseAt time))
                 (fun _ _ => 7) "now" "NIFTY" 10 0 _))
              "1887"%string eq_refl) "28-Mar-2024"%string [] eq_refl)
            (responseAt "10:00") eq_refl).
    lia.
  - refine (proj1 (fetchOptionChainData_cases
                     (fun _ => None) (fun _ => []) (fun _ _ _ _ => None)
                     (fun _ _ => 7) "now" "NIFTY" 10 0 _) eq_refl).
    lia.
Defined.
End FetchWitness.

Section ChartAndLookup.
Import Trendlyne.

(** X27. The PCR chart draws the history oldest first, whatever the order
    [getSnapshots] gave it in, and draws every entry of it once. *)
Theorem chartData_oldest_first (getTime : string -> Z) (history : list Snapshot) :
  StronglySorted (fun a b => getTime (timestamp a) <= getTime (timestamp b))
                 (PCRChart.chartData getTime history) /\
  Permutation (PCRChart.chartData getTime history) history.
Proof.
  split; [|apply sort_perm].
  apply (sort_sorted (fun a b => getTime (timestamp a) - getTime (timestamp b))
                     (fun a => getTime (timestamp a))).
  reflexivity.
Qed.

(** X28. For each index the selector offers, [getStockId] returns the known
    identifier of the index without consulting the search: the result does
    not depend on what the search would answer and is never null. *)
Theorem getStockId_offered_index (search : string -> option string)
  (entry : string * string) :
  In entry INDICES ->
  getStockId search (snd entry) = lookup FALLBACK_IDS (snd entry) /\
  getStockId search (snd entry) <> None.
Proof.
  intros [<-|[<-|[<-|[]]]]; split; (reflexivity || discriminate).
Qed.

Lemma getStockId_offered_index_scenario :
  getStockId (fun _ => None) "BANKNIFTY" = Some "1889"%string.
Proof.
  refine (proj1 (getStockId_offered_index (fun _ => None) ("BANK NIFTY", "BANKNIFTY")%string _)).
  right. left. reflexivity.
Defined.
End ChartAndLookup.
